(** * Proksee assembly pipeline: a model of [proksee/pipelines/assemble.py]

    The pipeline of [assemble.py] is an orchestrator: it calls a fixed
    sequence of collaborators (read validation, platform identification,
    read filtering, species estimation, the expert system, the assemblers,
    the evaluators and the writers), prints one report per stage, inspects
    four gates, and finishes by renaming the expert contigs and cleaning the
    output directory.

    The embedding follows the source function by function.  Functions of the
    source become computations in a small monad [M] that threads the
    filesystem, collects the chronological log of the calls the pipeline
    makes (with their results) and of the lines it prints, and propagates
    Python exceptions.  Collaborators whose code is not part of
    [assemble.py] are the fields of the record [Collaborators]. *)

From Stdlib Require Import Ascii String.
From stdpp Require Import base option list strings gmap fin_maps.

Open Scope string_scope.
Open Scope list_scope.

(** ** Paths and the filesystem

    The filesystem maps a path, as the program spells it, to the kind of
    entry found there.  Symbolic links, permissions and file contents are not
    represented, and two spellings of one path are two keys; only the
    directories above a path are found with or without a separator after
    their name. *)

Inductive node := File | Dir.

#[global] Instance node_eq_dec : EqDecision node.
Proof. solve_decision. Defined.

Abbreviation FS := (gmap string node).

Definition startswith (pre s : string) : bool := String.prefix pre s.

Definition endswith (suf s : string) : bool :=
  String.prefix (String.rev suf) (String.rev s).

(** [os.path.join(a, b)] of [posixpath]: an absolute [b] replaces [a];
    otherwise [b] is appended, after a separator unless [a] is empty or
    already ends with one. *)
Definition join (a b : string) : string :=
  if startswith "/" b then b
  else if bool_decide (a = "") || endswith "/" a then a +:+ b
  else a +:+ "/" +:+ b.

(** [p] names something strictly inside the directory [d]. *)
Definition under (d p : string) : bool :=
  startswith (join d "") p && negb (bool_decide (p = join d "")).

Fixpoint lstrip_sep (s : string) : string :=
  match s with
  | String "/"%char s' => lstrip_sep s'
  | _ => s
  end.

Fixpoint drop_until_sep (s : string) : string :=
  match s with
  | "" => ""
  | String "/"%char _ => s
  | String _ s' => drop_until_sep s'
  end.

(** [os.path.dirname(p)]: the part of [p] up to its last separator, with
    the trailing separators removed unless it consists of separators only. *)
Definition dirname (p : string) : string :=
  let head := drop_until_sep (String.rev p) in
  match lstrip_sep head with
  | "" => String.rev head
  | stripped => String.rev stripped
  end.

Definition isdir (p : string) (fs : FS) : bool :=
  bool_decide (fs !! p = Some Dir).

Definition isfile (p : string) (fs : FS) : bool :=
  bool_decide (fs !! p = Some File).

(** Python exceptions the pipeline's own statements can raise. *)
Inductive exn :=
| FileExistsError (path : string)
| FileNotFoundError (path : string)
| IsADirectoryError (path : string)
| NotADirectoryError (path : string)
| OSError (path : string)
| IndexError.

(** The entries of [fs] outside the tree rooted at [d]. *)
Definition prune (d : string) (fs : FS) : FS :=
  filter (λ kv, kv.1 ≠ d ∧ under d kv.1 = false) fs.

(** The tree rooted at [src], moved so that it is rooted at [dst]. *)
Definition moved_children (src dst : string) (fs : FS) : FS :=
  list_to_map
    (omap (λ kv : string * node,
             if under src kv.1
             then Some (dst +:+ String.substring (String.length src)
                                  (String.length kv.1 - String.length src) kv.1,
                        kv.2)
             else None)
          (map_to_list fs)).

Definition has_children (d : string) (fs : FS) : bool :=
  bool_decide (filter (λ kv : string * node, under d kv.1 = true) fs ≠ ∅).

(** [s] without its trailing separators; a path made of separators only
    is the root and stays as it is. *)
Definition rstrip_sep (s : string) : string :=
  match lstrip_sep (String.rev s) with
  | "" => s
  | stripped => String.rev stripped
  end.

(** The directories above [p], the nearest first.  The current directory
    and the root are not listed: they exist. *)
Fixpoint ancestors (fuel : nat) (p : string) : list string :=
  match fuel with
  | 0 => []
  | S fuel' =>
      let d := dirname p in
      if bool_decide (lstrip_sep d = "") then [] else d :: ancestors fuel' d
  end.

(** The entry of the directory [d] above a path.  [os.mkdir("out/")] makes
    the directory that [os.path.join("out/", name)] then has above it, so
    the entry is looked up as [d] and as [d] followed by a separator. *)
Definition directory_entry (d : string) (fs : FS) : option node :=
  match fs !! d with
  | Some k => Some k
  | None => fs !! (d +:+ "/")
  end.

(** What stops the creation of an entry at [p]: walking down from the top,
    the first directory above [p] that is missing ([FileNotFoundError]) or
    that is a file ([NotADirectoryError]).  Separators at the end of [p] do
    not count: what is above ["out/"] is what is above ["out"]. *)
Definition parent_error (p : string) (fs : FS) : option exn :=
  let q := rstrip_sep p in
  foldr (λ d above,
           match above with
           | Some e => Some e
           | None =>
               match directory_entry d fs with
               | Some Dir => None
               | Some File => Some (NotADirectoryError p)
               | None => Some (FileNotFoundError p)
               end
           end)
        None (ancestors (String.length q) q).

(** [os.mkdir(p)] *)
Definition os_mkdir (p : string) (fs : FS) : exn + FS :=
  if bool_decide (p = "") then inl (FileNotFoundError p)
  else match fs !! p with
       | Some _ => inl (FileExistsError p)
       | None =>
           match parent_error p fs with
           | Some e => inl e
           | None => inr (<[p := Dir]> fs)
           end
       end.

(** [os.remove(p)] *)
Definition os_remove (p : string) (fs : FS) : exn + FS :=
  match fs !! p with
  | Some File => inr (delete p fs)
  | Some Dir => inl (IsADirectoryError p)
  | None => inl (FileNotFoundError p)
  end.

(** [shutil.rmtree(p)] *)
Definition rmtree (p : string) (fs : FS) : exn + FS :=
  match fs !! p with
  | Some Dir => inr (prune p fs)
  | Some File => inl (NotADirectoryError p)
  | None => inl (FileNotFoundError p)
  end.

(** [os.rename(src, dst)] *)
Definition os_rename (src dst : string) (fs : FS) : exn + FS :=
  match fs !! src with
  | None => inl (FileNotFoundError src)
  | Some File =>
      match fs !! dst with
      | Some Dir => inl (IsADirectoryError dst)
      | Some File => inr (<[dst := File]> (delete src fs))
      | None =>
          match parent_error dst fs with
          | Some e => inl e
          | None => inr (<[dst := File]> (delete src fs))
          end
      end
  | Some Dir =>
      if bool_decide (src = dst) then inr fs
      else if under src dst then inl (OSError dst)
      else match fs !! dst with
           | Some File => inl (NotADirectoryError dst)
           | Some Dir =>
               if has_children dst fs then inl (OSError dst)
               else inr (<[dst := Dir]> (moved_children src dst fs ∪ prune src fs))
           | None =>
               match parent_error dst fs with
               | Some e => inl e
               | None => inr (<[dst := Dir]> (moved_children src dst fs ∪ prune src fs))
               end
           end
  end.

(** ** Values exchanged with the collaborators

    Only what [assemble.py] reads of each object is represented. *)

Module Species.
(** [name] is the attribute [species.name]; [str] is [str(species)]. *)
Record t := { name : string; str : string }.
End Species.

Module Assembler.
(** [contigs_filename] is the attribute read after [assemble()];
    [get_contigs_filename] is the value returned by the method. *)
Record t := { name : string;
              contigs_filename : string;
              get_contigs_filename : string }.
End Assembler.

Module AssemblyStrategy.
Record t := { proceed : bool; assembler : Assembler.t; report : string }.
End AssemblyStrategy.

Module Evaluation.
Record t := { success : bool; report : string }.
End Evaluation.

Module AssemblySummary.
(** [AssemblySummary(species, assembly_quality, contigs_filename)] *)
Record t {Quality : Type} :=
  { species : Species.t; assembly_quality : Quality; contigs_filename : string }.
Arguments t : clear implicits.
End AssemblySummary.

Definition nl : string := String (ascii_of_nat 10) "".

(** ** The monad of the pipeline *)

Inductive outcome (A : Type) :=
| Returned (a : A)
| Raised (e : exn).
Arguments Returned {A} a.
Arguments Raised {A} e.

Section Pipeline.

(** Types of [proksee] whose values the pipeline only passes around. *)
Context {Reads FilteredReads ReadQuality AssemblyQuality AssemblyDatabase
         ResourceSpecification Platform : Type}.
Context `{!EqDecision Platform}.

(** One entry of the log: a line printed, or a call that returned, with
    the arguments and the result that the pipeline uses later. *)
Inductive event :=
| Print (line : string)
| Mkdir (path : string)
| AreValidFastq (reads : Reads) (valid : bool)
| IdentifyName (platform_name : string) (platform : Platform)
| Identify (reads : Reads) (platform : Platform)
| FilterReads (reads : Reads) (output_directory : string) (filtered : FilteredReads)
| SummarizeQuality (read_quality : ReadQuality)
| OpenDatabase (database_path : string) (database : AssemblyDatabase)
| DetermineSpecies (species_list : list Species.t)
| CreateFastStrategy (strategy : AssemblyStrategy.t)
| Assemble (assembler : Assembler.t) (output : string)
| EstimateContamination (species : Species.t) (contigs_filename : string)
                        (evaluation : Evaluation.t)
| MeasureQuality (contigs_filename : string) (quality : AssemblyQuality)
| MLEvaluate (species : Species.t) (quality : AssemblyQuality)
             (evaluation : Evaluation.t)
| CreateExpertStrategy (fast_quality : AssemblyQuality) (strategy : AssemblyStrategy.t)
| HeuristicEvaluate (quality : AssemblyQuality) (evaluation : Evaluation.t)
| CompareAssemblies (fast expert : AssemblyQuality) (report : string)
| WriteCsv (names : list string) (qualities : list AssemblyQuality)
| WriteJson (platform : Platform) (species : Species.t) (reads : Reads)
            (read_quality : ReadQuality) (quality : AssemblyQuality)
            (heuristic machine_learning : Evaluation.t)
            (database : AssemblyDatabase)
| Rename (src dst : string)
| Cleanup (output_directory : string)
| Remove (path : string)
| Rmtree (path : string).

Record Run (A : Type) :=
  { result : outcome A; files : FS; log : list event }.
Arguments result {A} r.
Arguments files {A} r.
Arguments log {A} r.

Definition M (A : Type) : Type := FS → Run A.

Definition ret {A} (a : A) : M A :=
  λ fs, {| result := Returned a; files := fs; log := [] |}.

Definition bind {A B} (m : M A) (k : A → M B) : M B :=
  λ fs,
    let r := m fs in
    match result r with
    | Returned a =>
        let r' := k a (files r) in
        {| result := result r'; files := files r'; log := log r ++ log r' |}
    | Raised e => {| result := Raised e; files := files r; log := log r |}
    end.

Definition raise {A} (e : exn) : M A :=
  λ fs, {| result := Raised e; files := fs; log := [] |}.

(** Logs that a function of the pipeline was entered. *)
Definition entered (ev : event) : M unit :=
  λ fs, {| result := Returned tt; files := fs; log := [ev] |}.

(** [print(line)] *)
Definition print (line : string) : M unit :=
  λ fs, {| result := Returned tt; files := fs; log := [Print line] |}.

(** A call to a collaborator: it may change the filesystem, it returns,
    and the call is logged with its result. *)
Definition call {A} (f : FS → A * FS) (ev : A → event) : M A :=
  λ fs, let r := f fs in
        {| result := Returned r.1; files := r.2; log := [ev r.1] |}.

(** A call to an [os] function that changes the filesystem: logged when it
    succeeds, raised when it fails. *)
Definition os_call (op : FS → exn + FS) (ev : event) : M unit :=
  λ fs, match op fs with
        | inr fs' => {| result := Returned tt; files := fs'; log := [ev] |}
        | inl e => {| result := Raised e; files := fs; log := [] |}
        end.

(** A query of the filesystem ([os.path.isdir], [os.path.isfile]). *)
Definition query (q : FS → bool) : M bool :=
  λ fs, {| result := Returned (q fs); files := fs; log := [] |}.

(** [l[i]] for a non-negative [i] *)
Definition subscript {A} (l : list A) (i : nat) : M A :=
  match l !! i with
  | Some x => ret x
  | None => raise IndexError
  end.

(** [l[i:j]] for non-negative [i] and [j] *)
Definition slice {A} (l : list A) (i j : nat) : list A :=
  take (j - i) (drop i l).

(** [for x in xs: body]: runs [body] on each element and returns the
    binding of the loop variable after the loop, which Python leaves
    visible in the enclosing function ([x] is the binding before it). *)
Fixpoint for_in {A} (xs : list A) (x : A) (body : A → M unit) : M A :=
  match xs with
  | [] => ret x
  | y :: ys => bind (body y) (λ _, for_in ys y body)
  end.

Declare Scope pipeline_scope.
Notation "x ← y ; z" := (bind y (λ x, z))
  (at level 20, y at level 100, z at level 200, only parsing) : pipeline_scope.
Notation "x ;; z" := (bind x (λ _, z))
  (at level 100, z at level 200, only parsing, right associativity) : pipeline_scope.
Local Open Scope pipeline_scope.

(** *** Collaborators

    The functions, methods and constants of [proksee] that [assemble.py]
    imports.  A call takes the filesystem and returns its result with the
    filesystem it leaves; a collaborator that raises aborts the run, and the
    model describes the runs in which the collaborators return.  A method of an object is a function of the
    arguments the object was built from, then of its own arguments. *)
Record Collaborators :=
  { (* proksee.input_verification *)
    are_valid_fastq : Reads → FS → bool * FS;
    (* proksee.platform_identify *)
    UNIDENTIFIABLE : Platform;
    value : Platform → string;
    identify_name : string → FS → Platform * FS;
    identify : Reads → FS → Platform * FS;
    (* proksee.reads.read_filterer *)
    filter_reads : Reads → string → FS → FilteredReads * FS;
    summarize_quality : Reads → string → FS → ReadQuality * FS;
    get_file_locations : FilteredReads → list string;
    LOGFILE_FILENAME : string;
    FWD_FILTERED_FILENAME : string;
    REV_FILTERED_FILENAME : string;
    (* proksee.assemble.assembly_database *)
    AssemblyDatabase_new : string → FS → AssemblyDatabase * FS;
    (* proksee.utilities, proksee.species.species_estimator *)
    determine_species :
      list string → AssemblyDatabase → string → string → string →
      option string → FS → list Species.t * FS;
    SpeciesEstimator_OUTPUT_FILENAME : string;
    (* proksee.expert_system *)
    create_fast_assembly_strategy :
      Platform → Species.t → FilteredReads → string → ResourceSpecification →
      ReadQuality → FS → AssemblyStrategy.t * FS;
    create_expert_assembly_strategy :
      Platform → Species.t → FilteredReads → string → ResourceSpecification →
      AssemblyQuality → AssemblyDatabase → FS → AssemblyStrategy.t * FS;
    (* proksee.assemble.*_assembler *)
    assembler_assemble : Assembler.t → FS → string * FS;
    SkesaAssembler_DIRECTORY_NAME : string;
    SpadesAssembler_DIRECTORY_NAME : string;
    (* proksee.contamination_handler *)
    estimate_contamination :
      Species.t → string → string → string → string → FS → Evaluation.t * FS;
    FASTA_DIRECTORY : string;
    (* proksee.assemble.assembly_measurer *)
    measure_quality : string → string → FS → AssemblyQuality * FS;
    AssemblyMeasurer_OUTPUT_FILENAME : string;
    AssemblyMeasurer_ERROR_FILENAME : string;
    (* proksee.evaluate *)
    ml_evaluate : Species.t → AssemblyQuality → FS → Evaluation.t * FS;
    heuristic_evaluate :
      Species.t → AssemblyDatabase → AssemblyQuality → FS → Evaluation.t * FS;
    compare_assemblies : AssemblyQuality → AssemblyQuality → FS → string * FS;
    (* proksee.writer.assembly_statistics_writer *)
    write_csv : string → list string → list AssemblyQuality → FS → unit * FS;
    write_json :
      string → Platform → Species.t → Reads → ReadQuality → AssemblyQuality →
      Evaluation.t → Evaluation.t → AssemblyDatabase → FS → unit * FS }.

Variable C : Collaborators.

(** *** [report_valid_fastq] *)
Definition report_valid_fastq (valid : bool) : M unit :=
  let output :=
    if negb valid then "One or both of the reads are not in FASTQ format."
    else "The reads appear to be formatted correctly." in
  print output.

(** *** [report_platform] *)
Definition report_platform (platform : Platform) : M unit :=
  let output := "Sequencing Platform: " +:+ value C platform in
  print output.

Definition additional_species_warning : string :=
  nl +:+ "WARNING: Additional high-confidence species were found in the input data:" +:+ nl.

Definition unknown_species_warning : string :=
  nl +:+ "WARNING: A species could not be determined with high confidence from the input data.".

(** *** [report_species]

    The loop variable of the source is named [species], like the variable
    bound to the first candidate: after the loop [species] is the last
    candidate the loop printed. *)
Definition report_species (species_list : list Species.t) : M unit :=
  species ← subscript species_list 0;
  print ("SPECIES: " +:+ Species.str species);;
  species ←
    (if bool_decide (1 < length species_list) then
       print additional_species_warning;;
       for_in (slice species_list 1 (min 5 (length species_list))) species
              (λ species, print (Species.str species))
     else ret species);
  (if bool_decide (Species.name species = "Unknown")
   then print unknown_species_warning
   else ret tt);;
  print "".

Definition unable_to_proceed : string :=
  "The assembly was unable to proceed." +:+ nl.

(** *** [report_strategy] *)
Definition report_strategy (strategy : AssemblyStrategy.t) : M unit :=
  print (AssemblyStrategy.report strategy);;
  if negb (AssemblyStrategy.proceed strategy)
  then print unable_to_proceed
  else ret tt.

(** *** [report_contamination] *)
Definition report_contamination (evaluation : Evaluation.t) : M unit :=
  print (Evaluation.report evaluation);;
  if negb (Evaluation.success evaluation)
  then print unable_to_proceed
  else ret tt.

(** Truth value of an optional string: [None] and the empty string are
    false. *)
Definition truthy (s : option string) : option string :=
  match s with
  | Some "" => None
  | _ => s
  end.

(** *** [determine_platform] *)
Definition determine_platform (reads : Reads) (platform_name : option string)
  : M Platform :=
  let platform := UNIDENTIFIABLE C in
  platform ←
    match truthy platform_name with
    | Some platform_name =>
        platform ← call (identify_name C platform_name) (IdentifyName platform_name);
        (if bool_decide (platform = UNIDENTIFIABLE C) then
           print (nl +:+ "The platform name '" +:+ platform_name +:+ "' is unrecognized.");;
           print "Please see the help message for valid platform names."
         else
           print (nl +:+ "The platform name '" +:+ platform_name +:+ "' was recognized."));;
        ret platform
    | None => ret platform
    end;
  if bool_decide (platform = UNIDENTIFIABLE C) then
    print (nl +:+ "Attempting to identify the sequencing platform from the reads.");;
    call (identify C reads) (Identify reads)
  else ret platform.

(** One existence-guarded deletion of [cleanup]. *)
Definition remove_if_file (path : string) : M unit :=
  present ← query (isfile path);
  if present then os_call (os_remove path) (Remove path) else ret tt.

Definition rmtree_if_dir (path : string) : M unit :=
  present ← query (isdir path);
  if present then os_call (rmtree path) (Rmtree path) else ret tt.

(** *** [cleanup] *)
Definition cleanup (output_directory : string) : M unit :=
  entered (Cleanup output_directory);;
  (* Temporary FASTA directory used in contamination detection *)
  let fasta_directory := join output_directory (FASTA_DIRECTORY C) in
  rmtree_if_dir fasta_directory;;
  (* Read filtering logfile *)
  let filterer_logfile_path := join output_directory (LOGFILE_FILENAME C) in
  remove_if_file filterer_logfile_path;;
  (* Forward and reverse filtered read files *)
  let fwd_filtered_path := join output_directory (FWD_FILTERED_FILENAME C) in
  let rev_filtered_path := join output_directory (REV_FILTERED_FILENAME C) in
  remove_if_file fwd_filtered_path;;
  remove_if_file rev_filtered_path;;
  (* Species estimation output *)
  let species_estimation_path :=
    join output_directory (SpeciesEstimator_OUTPUT_FILENAME C) in
  remove_if_file species_estimation_path;;
  (* Assembly quality measurer temporary files *)
  let assembly_measurer_output_path :=
    join output_directory (AssemblyMeasurer_OUTPUT_FILENAME C) in
  let assembly_measurer_error_path :=
    join output_directory (AssemblyMeasurer_ERROR_FILENAME C) in
  remove_if_file assembly_measurer_output_path;;
  remove_if_file assembly_measurer_error_path;;
  (* Assembly output directories *)
  let skesa_directory := join output_directory (SkesaAssembler_DIRECTORY_NAME C) in
  let spades_directory := join output_directory (SpadesAssembler_DIRECTORY_NAME C) in
  rmtree_if_dir skesa_directory;;
  rmtree_if_dir spades_directory.

(** *** [assemble]

    A [return] in the middle of the source function is the [then] branch
    of a conditional whose [else] branch holds the rest of the function.
    The value [None] is what Python returns from a bare [return]. *)
Definition assemble (reads : Reads) (output_directory : string) (force : bool)
           (database_path mash_database_path : string)
           (resource_specification : ResourceSpecification)
           (id_mapping_filename : string)
           (species_name platform_name : option string)
  : M (option (AssemblySummary.t AssemblyQuality)) :=
  (* Make output directory *)
  present ← query (isdir output_directory);
  (if negb present
   then os_call (os_mkdir output_directory) (Mkdir output_directory)
   else ret tt);;
  (* Validate FASTQ inputs *)
  valid_fastq ← call (are_valid_fastq C reads) (AreValidFastq reads);
  report_valid_fastq valid_fastq;;
  if negb valid_fastq && negb force then ret None else
  platform ← determine_platform reads platform_name;
  report_platform platform;;
  (* Filter reads *)
  filtered_reads ← call (filter_reads C reads output_directory)
                        (FilterReads reads output_directory);
  read_quality ← call (summarize_quality C reads output_directory) SummarizeQuality;
  (* Species and assembly database *)
  assembly_database ← call (AssemblyDatabase_new C database_path)
                           (OpenDatabase database_path);
  (* Estimate species *)
  let filtered_filenames := get_file_locations C filtered_reads in
  species_list ← call (determine_species C filtered_filenames assembly_database
                         output_directory mash_database_path id_mapping_filename
                         species_name)
                      DetermineSpecies;
  species ← subscript species_list 0;
  report_species species_list;;
  (* Determine a fast assembly strategy *)
  (* expert = ExpertSystem(platform, species, filtered_reads,
                           output_directory, resource_specification) *)
  fast_strategy ← call (create_fast_assembly_strategy C platform species
                          filtered_reads output_directory resource_specification
                          read_quality)
                       CreateFastStrategy;
  report_strategy fast_strategy;;
  if negb (AssemblyStrategy.proceed fast_strategy) && negb force then ret None else
  (* Perform a fast assembly *)
  let assembler := AssemblyStrategy.assembler fast_strategy in
  output ← call (assembler_assemble C assembler) (Assemble assembler);
  print output;;
  (* Check for contamination at the contig level *)
  evaluation ← call (estimate_contamination C species
                       (Assembler.contigs_filename assembler) output_directory
                       mash_database_path id_mapping_filename)
                    (EstimateContamination species
                       (Assembler.contigs_filename assembler));
  report_contamination evaluation;;
  if negb (Evaluation.success evaluation) && negb force then ret None else
  (* Measure assembly quality statistics *)
  fast_assembly_quality ← call (measure_quality C
                                  (Assembler.contigs_filename assembler)
                                  output_directory)
                               (MeasureQuality (Assembler.contigs_filename assembler));
  (* Machine learning evaluation (fast assembly) *)
  evaluation ← call (ml_evaluate C species fast_assembly_quality)
                    (MLEvaluate species fast_assembly_quality);
  print (Evaluation.report evaluation);;
  (* Expert assembly *)
  expert_strategy ← call (create_expert_assembly_strategy C platform species
                            filtered_reads output_directory resource_specification
                            fast_assembly_quality assembly_database)
                         (CreateExpertStrategy fast_assembly_quality);
  report_strategy expert_strategy;;
  if negb (AssemblyStrategy.proceed expert_strategy) && negb force then ret None else
  print "Performing expert assembly.";;
  let assembler := AssemblyStrategy.assembler expert_strategy in
  output ← call (assembler_assemble C assembler) (Assemble assembler);
  print output;;
  (* Measure assembly quality *)
  expert_assembly_quality ← call (measure_quality C
                                    (Assembler.contigs_filename assembler)
                                    output_directory)
                                 (MeasureQuality (Assembler.contigs_filename assembler));
  (* Machine learning evaluation (expert assembly) *)
  machine_learning_evaluation ← call (ml_evaluate C species expert_assembly_quality)
                                     (MLEvaluate species expert_assembly_quality);
  print (Evaluation.report machine_learning_evaluation);;
  (* Evaluate assembly quality *)
  heuristic_evaluation ← call (heuristic_evaluate C species assembly_database
                                 expert_assembly_quality)
                              (HeuristicEvaluate expert_assembly_quality);
  print (Evaluation.report heuristic_evaluation);;
  (* Compare fast and slow assemblies *)
  report ← call (compare_assemblies C fast_assembly_quality expert_assembly_quality)
                (CompareAssemblies fast_assembly_quality expert_assembly_quality);
  print report;;
  (* Write CSV assembly statistics summary *)
  let names := [Assembler.name (AssemblyStrategy.assembler fast_strategy);
                Assembler.name (AssemblyStrategy.assembler expert_strategy)] in
  let qualities := [fast_assembly_quality; expert_assembly_quality] in
  call (write_csv C output_directory names qualities)
       (λ _, WriteCsv names qualities);;
  (* Write expert assembly information to JSON file *)
  call (write_json C output_directory platform species reads read_quality
          expert_assembly_quality heuristic_evaluation machine_learning_evaluation
          assembly_database)
       (λ _, WriteJson platform species reads read_quality expert_assembly_quality
               heuristic_evaluation machine_learning_evaluation assembly_database);;
  (* Move final assembled contigs to the main level of the output directory *)
  let contigs_filename := Assembler.get_contigs_filename assembler in
  let contigs_new_filename := join output_directory "contigs.fasta" in
  os_call (os_rename contigs_filename contigs_new_filename)
          (Rename contigs_filename contigs_new_filename);;
  (* Clean up the output directory *)
  cleanup output_directory;;
  print ("Complete." +:+ nl);;
  ret (Some {| AssemblySummary.species := species;
               AssemblySummary.assembly_quality := expert_assembly_quality;
               AssemblySummary.contigs_filename := contigs_new_filename |}).

End Pipeline.

Arguments result {_ _ _ _ _ _ A} r.
Arguments files {_ _ _ _ _ _ A} r.
Arguments log {_ _ _ _ _ _ A} r.

(** ** Observations on a log *)

Section Observations.

Context {Reads FilteredReads ReadQuality AssemblyQuality AssemblyDatabase
         Platform : Type}.

Local Abbreviation event :=
  (@event Reads FilteredReads ReadQuality AssemblyQuality AssemblyDatabase Platform).

(** The lines written to the program's output, in order. *)
Definition stdout (t : list event) : list string :=
  omap (λ e, match e with Print line => Some line | _ => None end) t.

Definition is_print (e : event) : bool :=
  match e with Print _ => true | _ => false end.

Definition is_assemble (e : event) : bool :=
  match e with Assemble _ _ => true | _ => false end.

(** A deletion performed by [cleanup], or [cleanup] itself. *)
Definition is_cleanup (e : event) : bool :=
  match e with Cleanup _ | Remove _ | Rmtree _ => true | _ => false end.

Definition is_deletion (e : event) : bool :=
  match e with Remove _ | Rmtree _ => true | _ => false end.

(** What the pipeline writes for the caller: the CSV and JSON summaries
    and the canonical contigs file. *)
Definition is_output (e : event) : bool :=
  match e with WriteCsv _ _ | WriteJson _ _ _ _ _ _ _ _ | Rename _ _ => true
          | _ => false end.

(** A stage that follows the contamination gate. *)
Definition is_after_contamination (e : event) : bool :=
  match e with
  | MeasureQuality _ _ | MLEvaluate _ _ _ | CreateExpertStrategy _ _
  | HeuristicEvaluate _ _ | CompareAssemblies _ _ _ | WriteCsv _ _
  | WriteJson _ _ _ _ _ _ _ _ | Rename _ _ | Cleanup _ | Remove _ | Rmtree _ => true
  | _ => false
  end.


End Observations.

(** ** The deletions of [cleanup], as data

    [cleanup] is nine guarded deletions in a row.  A [target] is one of them;
    [sweep] performs a list of them on a filesystem, [sweep_log] lists the
    deletions that take place. *)

Inductive target :=
| FileTarget (path : string)
| DirTarget (path : string).

Definition guard (t : target) (fs : FS) : bool :=
  match t with
  | FileTarget p => isfile p fs
  | DirTarget p => isdir p fs
  end.

Definition erase (t : target) (fs : FS) : FS :=
  match t with
  | FileTarget p => delete p fs
  | DirTarget p => prune p fs
  end.

Definition sweep1 (t : target) (fs : FS) : FS :=
  if guard t fs then erase t fs else fs.

Definition sweep (ts : list target) (fs : FS) : FS :=
  foldl (λ fs t, sweep1 t fs) fs ts.

(** [t] deletes the path [p] if it is there. *)
Definition hits (t : target) (p : string) : bool :=
  match t with
  | FileTarget q => bool_decide (p = q)
  | DirTarget q => bool_decide (p = q) || under q p
  end.

Section Targets.

Context {Reads FilteredReads ReadQuality AssemblyQuality AssemblyDatabase
         ResourceSpecification Platform : Type}.

Local Abbreviation event :=
  (@event Reads FilteredReads ReadQuality AssemblyQuality AssemblyDatabase Platform).
Local Abbreviation M :=
  (@M Reads FilteredReads ReadQuality AssemblyQuality AssemblyDatabase Platform).
Local Abbreviation Collaborators :=
  (@Collaborators Reads FilteredReads ReadQuality AssemblyQuality AssemblyDatabase
                  ResourceSpecification Platform).

Definition erased (t : target) : event :=
  match t with
  | FileTarget p => Remove p
  | DirTarget p => Rmtree p
  end.

Fixpoint sweep_log (ts : list target) (fs : FS) : list event :=
  match ts with
  | [] => []
  | t :: ts' =>
      (if guard t fs then [erased t] else []) ++ sweep_log ts' (sweep1 t fs)
  end.

(** The targets of [cleanup], in the order of the source. *)
Definition cleanup_targets (C : Collaborators) (output_directory : string)
  : list target :=
  [ DirTarget (join output_directory (FASTA_DIRECTORY C));
    FileTarget (join output_directory (LOGFILE_FILENAME C));
    FileTarget (join output_directory (FWD_FILTERED_FILENAME C));
    FileTarget (join output_directory (REV_FILTERED_FILENAME C));
    FileTarget (join output_directory (SpeciesEstimator_OUTPUT_FILENAME C));
    FileTarget (join output_directory (AssemblyMeasurer_OUTPUT_FILENAME C));
    FileTarget (join output_directory (AssemblyMeasurer_ERROR_FILENAME C));
    DirTarget (join output_directory (SkesaAssembler_DIRECTORY_NAME C));
    DirTarget (join output_directory (SpadesAssembler_DIRECTORY_NAME C)) ].

(** [cleanup] leaves the path [p] alone. *)
Definition spared (C : Collaborators) (output_directory p : string) : bool :=
  forallb (λ t, negb (hits t p)) (cleanup_targets C output_directory).

Definition is_platform_event (e : event) : bool :=
  match e with Print _ | IdentifyName _ _ | Identify _ _ => true | _ => false end.

(** [wp m Q fs h] runs [m] on the filesystem [fs] after the events [h]
    and states [Q] of the outcome, the filesystem left and the whole log. *)
Definition wp {A} (m : M A) (Q : outcome A → FS → list event → Prop)
           (fs : FS) (h : list event) : Prop :=
  Q (result (m fs)) (files (m fs)) (h ++ log (m fs)).

(** [preceded R t]: every event [e] of the log [t] satisfies [R before e],
    where [before] is the part of the log that comes before [e]. *)
Definition preceded (R : list event → event → Prop) (t : list event) : Prop :=
  ∀ before e after, t = before ++ e :: after → R before e.

(** What must have happened before a stage: the fast assembler ran before
    contamination is estimated on its contigs, and the quality given to the
    expert strategy was measured before. *)
Definition stage_order_at (before : list event) (e : event) : Prop :=
  match e with
  | EstimateContamination _ contigs _ =>
      ∃ fast output,
        CreateFastStrategy fast ∈ before
        ∧ Assemble (AssemblyStrategy.assembler fast) output ∈ before
        ∧ contigs = Assembler.contigs_filename (AssemblyStrategy.assembler fast)
  | CreateExpertStrategy quality _ =>
      ∃ fast,
        CreateFastStrategy fast ∈ before
        ∧ MeasureQuality
            (Assembler.contigs_filename (AssemblyStrategy.assembler fast)) quality
          ∈ before
  | _ => True
  end.

(** [cleanup] and its deletions come after the rename of the contigs to
    the canonical path. *)
Definition cleanup_order_at (output_directory : string)
           (before : list event) (e : event) : Prop :=
  if is_cleanup e
  then ∃ src, Rename src (join output_directory "contigs.fasta") ∈ before
  else True.

(** [continues halted forced]: on every filesystem the computation
    [forced] never returns [None]; it runs exactly as [halted] does when
    [halted] does not return [None]; and when [halted] returns [None],
    [forced] does first what [halted] did and then something more. *)
Definition continues {A} (halted forced : M (option A)) : Prop :=
  ∀ fs, result (forced fs) ≠ Returned None
        ∧ (result (halted fs) ≠ Returned None → forced fs = halted fs)
        ∧ (result (halted fs) = Returned None →
           ∃ rest, rest ≠ [] ∧ log (forced fs) = log (halted fs) ++ rest).

(** The lines [report_species] prints for the candidates [top :: rest]. *)
Definition species_lines (top : Species.t) (rest : list Species.t) : list string :=
  let listed := slice (top :: rest) 1 (min 5 (length (top :: rest))) in
  ["SPECIES: " +:+ Species.str top]
  ++ (if bool_decide (1 < length (top :: rest))
      then additional_species_warning :: (Species.str <$> listed) else [])
  ++ (if bool_decide
           (Species.name (if bool_decide (1 < length (top :: rest))
                          then List.last listed top else top) = "Unknown")
      then [unknown_species_warning] else [])
  ++ [""].

End Targets.

(** [contains needle s]: [needle] occurs in [s]. *)
Fixpoint contains (needle s : string) : bool :=
  String.prefix needle s ||
  match s with
  | "" => false
  | String _ s' => contains needle s'
  end.

(** ** A concrete environment

    Collaborators with fixed answers, used to run the pipeline on examples.
    The constants are the names the comments of [cleanup] mention, with
    plausible names for the others. *)

Inductive demo_platform := Unidentifiable | Illumina.

#[global] Instance demo_platform_eq_dec : EqDecision demo_platform.
Proof. solve_decision. Defined.

Definition touch (path : string) (fs : FS) : FS := <[path := File]> fs.
Definition mkdirs (path : string) (fs : FS) : FS := <[path := Dir]> fs.

Definition demo (valid : bool) (candidates : list Species.t)
           (fast expert : AssemblyStrategy.t) (contamination : Evaluation.t)
  : @Collaborators string (list string) nat nat string nat demo_platform :=
  {| are_valid_fastq := λ _ fs, (valid, fs);
     UNIDENTIFIABLE := Unidentifiable;
     value := λ p, match p with Unidentifiable => "Unidentifiable"
                           | Illumina => "Illumina" end;
     identify_name := λ n fs,
       (if bool_decide (n = "Illumina") then Illumina else Unidentifiable, fs);
     identify := λ _ fs, (Illumina, fs);
     filter_reads := λ _ out fs,
       ([join out "fwd_filtered.fastq"],
        touch (join out "fastp.log") (touch (join out "fwd_filtered.fastq") fs));
     summarize_quality := λ _ _ fs, (30, fs);
     get_file_locations := λ filtered, filtered;
     LOGFILE_FILENAME := "fastp.log";
     FWD_FILTERED_FILENAME := "fwd_filtered.fastq";
     REV_FILTERED_FILENAME := "rev_filtered.fastq";
     AssemblyDatabase_new := λ path fs, (path, fs);
     determine_species := λ _ _ out _ _ _ fs, (candidates, touch (join out "mash.o") fs);
     SpeciesEstimator_OUTPUT_FILENAME := "mash.o";
     create_fast_assembly_strategy := λ _ _ _ _ _ _ fs, (fast, fs);
     create_expert_assembly_strategy := λ _ _ _ _ _ _ _ fs, (expert, fs);
     assembler_assemble := λ a fs,
       (Assembler.name a +:+ " finished.",
        touch (Assembler.get_contigs_filename a)
              (mkdirs (dirname (Assembler.get_contigs_filename a)) fs));
     SkesaAssembler_DIRECTORY_NAME := "skesa";
     SpadesAssembler_DIRECTORY_NAME := "spades";
     estimate_contamination := λ _ _ out _ _ fs,
       (contamination, touch (join (join out "fasta") "0.fasta") (mkdirs (join out "fasta") fs));
     FASTA_DIRECTORY := "fasta";
     measure_quality := λ contigs out fs,
       (String.length contigs,
        touch (join out "quast.out") (touch (join out "quast.err") fs));
     AssemblyMeasurer_OUTPUT_FILENAME := "quast.out";
     AssemblyMeasurer_ERROR_FILENAME := "quast.err";
     ml_evaluate := λ _ q fs,
       ({| Evaluation.success := true; Evaluation.report := "ML: fine." |}, fs);
     heuristic_evaluate := λ _ _ q fs,
       ({| Evaluation.success := true; Evaluation.report := "Heuristic: fine." |}, fs);
     compare_assemblies := λ _ _ fs, ("Comparison: similar.", fs);
     write_csv := λ out _ _ fs, (tt, touch (join out "assembly_statistics.csv") fs);
     write_json := λ out _ _ _ _ _ _ _ _ fs, (tt, touch (join out "assembly_info.json") fs) |}.

Definition skesa : Assembler.t :=
  {| Assembler.name := "Skesa";
     Assembler.contigs_filename := "out/skesa/contigs.fasta";
     Assembler.get_contigs_filename := "out/skesa/contigs.fasta" |}.

Definition spades : Assembler.t :=
  {| Assembler.name := "SPAdes";
     Assembler.contigs_filename := "out/spades/contigs.fasta";
     Assembler.get_contigs_filename := "out/spades/contigs.fasta" |}.

Definition strategy (proceed : bool) (a : Assembler.t) : AssemblyStrategy.t :=
  {| AssemblyStrategy.proceed := proceed;
     AssemblyStrategy.assembler := a;
     AssemblyStrategy.report := "Strategy: " +:+ Assembler.name a +:+ "." |}.

Definition evaluation (success : bool) : Evaluation.t :=
  {| Evaluation.success := success; Evaluation.report := "Contamination checked." |}.

Definition species (name : string) : Species.t :=
  {| Species.name := name; Species.str := name +:+ " (p = 0.0)" |}.

Definition ecoli : Species.t := species "Escherichia coli".
Definition unknown : Species.t := species "Unknown".

(** A run of [assemble] in the concrete environment, on the reads
    ["reads.fastq"] and the output directory ["out"]. *)
Definition demo_run (force valid : bool) (candidates : list Species.t)
           (fast_ok contamination_ok expert_ok : bool) (fs : FS) :=
  assemble (demo valid candidates (strategy fast_ok skesa) (strategy expert_ok spades)
              (evaluation contamination_ok))
           "reads.fastq" "out" force "db" "mash.msh" 4 "ids.json" None None fs.

Abbreviation demo_event :=
  (@event string (list string) nat nat string demo_platform).
Abbreviation demo_report_valid_fastq :=
  (@report_valid_fastq string (list string) nat nat string demo_platform).
Abbreviation demo_report_species :=
  (@report_species string (list string) nat nat string demo_platform).
Abbreviation demo_report_strategy :=
  (@report_strategy string (list string) nat nat string demo_platform).
Abbreviation demo_report_contamination :=
  (@report_contamination string (list string) nat nat string demo_platform).

(** ** Paths: examples *)

Example join_plain : join "out" "contigs.fasta" = "out/contigs.fasta".
Proof. reflexivity. Qed.
Example join_sep : join "out/" "skesa" = "out/skesa".
Proof. reflexivity. Qed.
Example join_abs : join "out" "/tmp/x" = "/tmp/x".
Proof. reflexivity. Qed.
Example dirname_1 : dirname "a/b/c" = "a/b".
Proof. reflexivity. Qed.
Example dirname_2 : dirname "/c" = "/".
Proof. reflexivity. Qed.
Example dirname_3 : dirname "c" = "".
Proof. reflexivity. Qed.
Example dirname_4 : dirname "a//c" = "a".
Proof. reflexivity. Qed.
Example ancestors_nested : ancestors 7 "a/b/c/d" = ["a/b/c"; "a/b"; "a"].
Proof. by vm_compute. Qed.
Example ancestors_absolute : ancestors 4 "/a/b" = ["/a"].
Proof. by vm_compute. Qed.
Example mkdir_plain : os_mkdir "out" ∅ = inr (mkdirs "out" ∅).
Proof. by vm_compute. Qed.
Example mkdir_trailing_separator : os_mkdir "out/" ∅ = inr (mkdirs "out/" ∅).
Proof. by vm_compute. Qed.
Example mkdir_exists :
  os_mkdir "out" (touch "out" ∅) = inl (FileExistsError "out").
Proof. by vm_compute. Qed.
Example mkdir_missing_parent :
  os_mkdir "a/b" ∅ = inl (FileNotFoundError "a/b").
Proof. by vm_compute. Qed.
Example mkdir_below_file :
  os_mkdir "f/b/out" (touch "f" ∅) = inl (NotADirectoryError "f/b/out").
Proof. by vm_compute. Qed.
Example mkdir_nested :
  os_mkdir "a/b/out" (mkdirs "a/b" (mkdirs "a" ∅))
  = inr (mkdirs "a/b/out" (mkdirs "a/b" (mkdirs "a" ∅))).
Proof. by vm_compute. Qed.
Example rename_below_directory_with_separator :
  os_rename "out/spades/contigs.fasta" "out/contigs.fasta"
    (touch "out/spades/contigs.fasta" (mkdirs "out/" ∅))
  = inr (touch "out/contigs.fasta" (mkdirs "out/" ∅)).
Proof. by vm_compute. Qed.

(** ** A logic for runs

    Rules to prove [wp m Q fs h] along the structure of [m]. *)

Section Logic.

Context {Reads FilteredReads ReadQuality AssemblyQuality AssemblyDatabase
         ResourceSpecification Platform : Type}.
Context `{!EqDecision Platform}.

Local Abbreviation event :=
  (@event Reads FilteredReads ReadQuality AssemblyQuality AssemblyDatabase Platform).
Local Abbreviation M :=
  (@M Reads FilteredReads ReadQuality AssemblyQuality AssemblyDatabase Platform).
Local Abbreviation Collaborators :=
  (@Collaborators Reads FilteredReads ReadQuality AssemblyQuality AssemblyDatabase
                  ResourceSpecification Platform).
Local Abbreviation wp m Q fs h :=
  (@wp Reads FilteredReads ReadQuality AssemblyQuality AssemblyDatabase Platform
       _ m Q fs h).

Lemma wp_ret {A} (a : A) Q fs h : Q (Returned a) fs h → wp (ret a) Q fs h.
Proof. unfold wp; simpl. by rewrite app_nil_r. Qed.

Lemma wp_raise {A} e (Q : outcome A → _) fs h : Q (Raised e) fs h → wp (raise e) Q fs h.
Proof. unfold wp; simpl. by rewrite app_nil_r. Qed.

Lemma wp_bind {A B} (m : M A) (k : A → M B) Q fs h :
  wp m (λ o fs' h', match o with
                    | Returned a => wp (k a) Q fs' h'
                    | Raised e => Q (Raised e) fs' h'
                    end) fs h →
  wp (bind m k) Q fs h.
Proof.
  unfold wp, bind; simpl. destruct (result (m fs)); simpl; [|done].
  by rewrite app_assoc.
Qed.

Lemma wp_mono {A} (m : M A) (Q Q' : outcome A → FS → list event → Prop) fs h :
  (∀ o fs' h', Q o fs' h' → Q' o fs' h') → wp m Q fs h → wp m Q' fs h.
Proof. unfold wp. auto. Qed.

Lemma wp_print line (Q : outcome unit → _) fs h :
  Q (Returned tt) fs (h ++ [Print line]) → wp (print line) Q fs h.
Proof. done. Qed.

Lemma wp_entered ev (Q : outcome unit → _) fs h :
  Q (Returned tt) fs (h ++ [ev]) → wp (entered ev) Q fs h.
Proof. done. Qed.

Lemma wp_call {A} (f : FS → A * FS) ev Q fs h :
  (∀ a fs', Q (Returned a) fs' (h ++ [ev a])) → wp (call f ev) Q fs h.
Proof. unfold wp; simpl. auto. Qed.

Lemma wp_os_call op ev (Q : outcome unit → _) fs h :
  (∀ fs', op fs = inr fs' → Q (Returned tt) fs' (h ++ [ev])) →
  (∀ e, op fs = inl e → Q (Raised e) fs h) →
  wp (os_call op ev) Q fs h.
Proof.
  unfold wp, os_call. intros Hok Herr. destruct (op fs); simpl.
  - rewrite app_nil_r. auto.
  - auto.
Qed.

Lemma wp_query q (Q : outcome bool → _) fs h :
  Q (Returned (q fs)) fs h → wp (query q) Q fs h.
Proof. unfold wp; simpl. by rewrite app_nil_r. Qed.

Lemma wp_subscript {A} (l : list A) i Q fs h :
  (∀ x, l !! i = Some x → Q (Returned x) fs h) →
  (l !! i = None → Q (Raised IndexError) fs h) →
  wp (subscript l i) Q fs h.
Proof.
  unfold subscript. intros Hsome Hnone.
  destruct (l !! i); [apply wp_ret | apply wp_raise]; auto.
Qed.

Lemma last_cons {A} (y : A) ys x : List.last (y :: ys) x = List.last ys y.
Proof.
  revert x y. induction ys as [|z zs IH]; intros x y; [done|].
  change (List.last (z :: zs) x = List.last (z :: zs) y). by rewrite !IH.
Qed.

(** The loop prints one line per element and leaves the loop variable
    bound to the last one. *)
Lemma wp_for_in_print (xs : list Species.t) x Q fs h :
  Q (Returned (List.last xs x)) fs (h ++ map (λ y, Print (Species.str y)) xs) →
  wp (for_in xs x (λ y, print (Species.str y))) Q fs h.
Proof.
  revert x h. induction xs as [|y ys IH]; intros x h HQ.
  - apply wp_ret. simpl in HQ. by rewrite app_nil_r in HQ.
  - cbn [for_in]. apply wp_bind, wp_print. apply IH.
    rewrite <- app_assoc. by rewrite last_cons in HQ.
Qed.

Variable C : Collaborators.

Lemma wp_report_valid_fastq (valid : bool) (Q : outcome unit → _) fs h :
  Q (Returned tt) fs
    (h ++ [Print (if valid then "The reads appear to be formatted correctly."
                  else "One or both of the reads are not in FASTQ format.")]) →
  wp (report_valid_fastq valid) Q fs h.
Proof. by destruct valid. Qed.

Lemma wp_report_platform platform (Q : outcome unit → _) fs h :
  Q (Returned tt) fs (h ++ [Print ("Sequencing Platform: " +:+ value C platform)]) →
  wp (report_platform C platform) Q fs h.
Proof. done. Qed.

Lemma wp_report_strategy strategy (Q : outcome unit → _) fs h :
  Q (Returned tt) fs
    (h ++ Print (AssemblyStrategy.report strategy)
       :: (if AssemblyStrategy.proceed strategy then []
           else [Print unable_to_proceed])) →
  wp (report_strategy strategy) Q fs h.
Proof.
  intros HQ. apply wp_bind, wp_print.
  destruct (AssemblyStrategy.proceed strategy); simpl.
  - by apply wp_ret.
  - apply wp_print. by rewrite <- app_assoc.
Qed.

Lemma wp_report_contamination evaluation (Q : outcome unit → _) fs h :
  Q (Returned tt) fs
    (h ++ Print (Evaluation.report evaluation)
       :: (if Evaluation.success evaluation then []
           else [Print unable_to_proceed])) →
  wp (report_contamination evaluation) Q fs h.
Proof.
  intros HQ. apply wp_bind, wp_print.
  destruct (Evaluation.success evaluation); simpl.
  - by apply wp_ret.
  - apply wp_print. by rewrite <- app_assoc.
Qed.

Lemma wp_report_species top rest (Q : outcome unit → _) fs h :
  Q (Returned tt) fs (h ++ (Print <$> species_lines top rest)) →
  wp (report_species (top :: rest)) Q fs h.
Proof.
  intros HQ. unfold report_species.
  apply wp_bind, wp_subscript; [intros x [= <-] | done].
  apply wp_bind, wp_print. apply wp_bind.
  unfold species_lines in HQ.
  destruct (bool_decide (1 < length (top :: rest))).
  - apply wp_bind, wp_print. apply wp_for_in_print.
    apply wp_bind.
    destruct (bool_decide (Species.name _ = "Unknown")).
    + apply wp_print, wp_print.
      rewrite <- !app_assoc. simpl in *.
      by rewrite fmap_app, <- list_fmap_compose in HQ.
    + apply wp_ret, wp_print.
      rewrite <- !app_assoc. simpl in *.
      by rewrite fmap_app, <- list_fmap_compose in HQ.
  - apply wp_ret. apply wp_bind.
    destruct (bool_decide (Species.name _ = "Unknown")).
    + apply wp_print, wp_print. by rewrite <- !app_assoc.
    + apply wp_ret, wp_print. by rewrite <- !app_assoc.
Qed.

Ltac wp_step :=
  cbv beta iota zeta;
  lazymatch goal with
  | |- wp (bind _ _) _ _ _ => apply wp_bind
  | |- wp (ret _) _ _ _ => apply wp_ret
  | |- wp (raise _) _ _ _ => apply wp_raise
  | |- wp (print _) _ _ _ => apply wp_print
  | |- wp (entered _) _ _ _ => apply wp_entered
  | |- wp (call _ _) _ _ _ => apply wp_call; intros ? ?
  | |- wp (query _) _ _ _ => apply wp_query
  | |- wp (report_valid_fastq _) _ _ _ => apply wp_report_valid_fastq
  | |- wp (report_platform _ _) _ _ _ => apply wp_report_platform
  | |- wp (report_strategy _) _ _ _ => apply wp_report_strategy
  | |- wp (report_contamination _) _ _ _ => apply wp_report_contamination
  end.

Lemma wp_determine_platform reads platform_name Q fs h :
  (∀ platform fs' t,
     Forall (λ e, is_platform_event e = true) t →
     Q (Returned platform) fs' (h ++ t)) →
  wp (determine_platform C reads platform_name) Q fs h.
Proof.
  intros HQ. unfold determine_platform. wp_step.
  destruct (truthy platform_name) as [name|].
  - repeat wp_step.
    destruct (bool_decide (a = UNIDENTIFIABLE C)) eqn:Ha.
    + repeat wp_step. rewrite Ha. repeat wp_step.
      rewrite <- !app_assoc. apply HQ. by repeat constructor.
    + repeat wp_step. rewrite Ha. repeat wp_step.
      rewrite <- !app_assoc. apply HQ. by repeat constructor.
  - repeat wp_step. case_bool_decide; [|done]. repeat wp_step.
    rewrite <- !app_assoc. apply HQ. by repeat constructor.
Qed.

(** *** The filesystem under [sweep] *)

Lemma erase_subseteq t (fs : FS) : erase t fs ⊆ fs.
Proof.
  destruct t; simpl; [apply delete_subseteq | apply map_filter_subseteq].
Qed.

Lemma sweep1_subseteq t (fs : FS) : sweep1 t fs ⊆ fs.
Proof. unfold sweep1. destruct (guard t fs); [apply erase_subseteq | done]. Qed.

Lemma sweep_subseteq ts (fs : FS) : sweep ts fs ⊆ fs.
Proof.
  revert fs. induction ts as [|t ts IH]; intros fs; [done|].
  simpl. etrans; [apply IH | apply sweep1_subseteq].
Qed.

Lemma guard_erase t (fs : FS) : guard t (erase t fs) = false.
Proof.
  destruct t as [p|p]; simpl; unfold isfile, isdir, prune;
    apply bool_decide_eq_false.
  - by rewrite lookup_delete_eq.
  - intros Hp. apply map_lookup_filter_Some in Hp as [_ [Hne _]]. by apply Hne.
Qed.

Lemma guard_sweep1 t (fs : FS) : guard t (sweep1 t fs) = false.
Proof.
  unfold sweep1. destruct (guard t fs) eqn:Hg; [apply guard_erase | done].
Qed.

(** A guard that is false stays false when entries are only taken away. *)
Lemma guard_subseteq t (fs fs' : FS) :
  fs' ⊆ fs → guard t fs = false → guard t fs' = false.
Proof.
  intros Hsub Hg.
  destruct t as [p|p]; simpl in *; unfold isfile, isdir in *;
    apply bool_decide_eq_false; apply bool_decide_eq_false in Hg;
    intros Hp; apply Hg; by eapply lookup_weaken.
Qed.

Lemma guard_sweep ts t (fs : FS) : t ∈ ts → guard t (sweep ts fs) = false.
Proof.
  revert fs. induction ts as [|t' ts IH]; intros fs Hin; [by inversion Hin|].
  simpl. apply elem_of_cons in Hin as [->|Hin]; [|by apply IH].
  eapply guard_subseteq; [apply sweep_subseteq | apply guard_sweep1].
Qed.

Lemma sweep_idle ts (fs : FS) :
  (∀ t, t ∈ ts → guard t fs = false) →
  sweep ts fs = fs ∧ sweep_log (Reads:=Reads) (FilteredReads:=FilteredReads)
                       (ReadQuality:=ReadQuality) (AssemblyQuality:=AssemblyQuality)
                       (AssemblyDatabase:=AssemblyDatabase) (Platform:=Platform)
                       ts fs = [].
Proof.
  induction ts as [|t ts IH]; intros Hg; [done|].
  simpl. unfold sweep1. rewrite (Hg t) by left. simpl.
  apply IH. intros t' Hin. apply Hg. by right.
Qed.

Lemma sweep_log_deletions ts (fs : FS) :
  Forall (λ e : event, is_deletion e = true) (sweep_log ts fs).
Proof.
  revert fs. induction ts as [|t ts IH]; intros fs; simpl; [constructor|].
  apply Forall_app. split; [|apply IH].
  destruct (guard t fs); [|constructor]. by destruct t; repeat constructor.
Qed.

Lemma erase_spares t p (fs : FS) : hits t p = false → erase t fs !! p = fs !! p.
Proof.
  destruct t as [q|q]; simpl; intros Hhit.
  - apply bool_decide_eq_false in Hhit. by rewrite lookup_delete_ne.
  - apply orb_false_iff in Hhit as [Hne Hun]. apply bool_decide_eq_false in Hne.
    unfold prune. destruct (fs !! p) as [k|] eqn:Hp.
    + by apply map_lookup_filter_Some.
    + apply map_lookup_filter_None. by left.
Qed.

Lemma sweep_spares ts p (fs : FS) :
  forallb (λ t, negb (hits t p)) ts = true → sweep ts fs !! p = fs !! p.
Proof.
  revert fs. induction ts as [|t ts IH]; intros fs Hsp; [done|].
  simpl in *. apply andb_true_iff in Hsp as [Ht Hts].
  rewrite IH by done. unfold sweep1.
  destruct (guard t fs); [|done]. apply erase_spares. by destruct (hits t p).
Qed.

(** *** [cleanup] is the sweep of its targets *)

Lemma sweep_nil (fs : FS) : sweep [] fs = fs.
Proof. done. Qed.

Lemma sweep_cons t ts (fs : FS) : sweep (t :: ts) fs = sweep ts (sweep1 t fs).
Proof. done. Qed.

Lemma sweep_log_nil (fs : FS) : sweep_log [] fs = @nil event.
Proof. done. Qed.

Lemma sweep_log_cons t ts (fs : FS) :
  sweep_log (t :: ts) fs
  = (if guard t fs then [erased t : event] else []) ++ sweep_log ts (sweep1 t fs).
Proof. done. Qed.

Lemma wp_remove_if_file path (Q : outcome unit → _) fs h :
  Q (Returned tt) (sweep1 (FileTarget path) fs)
    (h ++ (if guard (FileTarget path) fs then [erased (FileTarget path)] else [])) →
  wp (remove_if_file path) Q fs h.
Proof.
  intros HQ. unfold remove_if_file. do 2 wp_step.
  unfold sweep1 in HQ. simpl in HQ. unfold isfile in *. case_bool_decide as Hp.
  - apply wp_os_call; unfold os_remove; rewrite Hp; [by intros ? [= <-] | done].
  - wp_step. by rewrite app_nil_r in HQ.
Qed.

Lemma wp_rmtree_if_dir path (Q : outcome unit → _) fs h :
  Q (Returned tt) (sweep1 (DirTarget path) fs)
    (h ++ (if guard (DirTarget path) fs then [erased (DirTarget path)] else [])) →
  wp (rmtree_if_dir path) Q fs h.
Proof.
  intros HQ. unfold rmtree_if_dir. do 2 wp_step.
  unfold sweep1 in HQ. simpl in HQ. unfold isdir in *. case_bool_decide as Hp.
  - apply wp_os_call; unfold rmtree; rewrite Hp; [by intros ? [= <-] | done].
  - wp_step. by rewrite app_nil_r in HQ.
Qed.

Lemma wp_cleanup output_directory (Q : outcome unit → _) fs h :
  Q (Returned tt) (sweep (cleanup_targets C output_directory) fs)
    (h ++ Cleanup output_directory
       :: sweep_log (cleanup_targets C output_directory) fs) →
  wp (cleanup C output_directory) Q fs h.
Proof.
  intros HQ. unfold cleanup.
  do 2 wp_step.
  wp_step; apply wp_rmtree_if_dir.
  do 6 (wp_step; apply wp_remove_if_file).
  wp_step; apply wp_rmtree_if_dir.
  cbv beta iota zeta. apply wp_rmtree_if_dir.
  rewrite <- !app_assoc. unfold cleanup_targets in HQ.
  rewrite !sweep_cons, !sweep_log_cons, sweep_nil, sweep_log_nil in HQ.
  rewrite app_nil_r in HQ. exact HQ.
Qed.

Lemma cleanup_run output_directory fs :
  cleanup C output_directory fs
  = {| result := Returned tt;
       files := sweep (cleanup_targets C output_directory) fs;
       log := Cleanup output_directory
              :: sweep_log (cleanup_targets C output_directory) fs |}.
Proof.
  pose proof (wp_cleanup output_directory
                (λ o fs' t, o = Returned tt
                            ∧ fs' = sweep (cleanup_targets C output_directory) fs
                            ∧ t = Cleanup output_directory
                                  :: sweep_log (cleanup_targets C output_directory) fs)
                fs []) as Hwp.
  unfold wp in Hwp. cbv beta in Hwp.
  destruct (cleanup C output_directory fs) as [r f l].
  cbn [result files log app] in Hwp. by destruct Hwp as (-> & -> & ->).
Qed.

(** *** Symbolic execution of [assemble] *)

Ltac wp_pipeline_step :=
  first
    [ wp_step
    | lazymatch goal with
      | |- wp (determine_platform _ _ _) _ _ _ =>
          apply wp_determine_platform; intros ? ? ? ?
      | |- wp (cleanup _ _) _ _ _ => apply wp_cleanup
      | |- wp (report_species (_ :: _)) _ _ _ => apply wp_report_species
      | |- wp (subscript ?l 0) _ _ _ =>
          destruct l as [|? ?]; [apply wp_raise | apply wp_ret]
      | |- wp (os_call _ _) _ _ _ => apply wp_os_call; intros ? ?
      | |- wp (if negb (isdir ?p ?fs) then _ else _) _ _ _ =>
          destruct (isdir p fs) eqn:?; cbn [negb]
      | |- wp (if negb ?x && false then _ else _) _ _ _ =>
          rewrite (andb_false_r (negb x))
      | |- wp (if negb ?x && true then _ else _) _ _ _ =>
          destruct x eqn:?; cbn [negb andb]
      end ].

Ltac wp_pipeline := unfold assemble; repeat wp_pipeline_step.

Lemma wp_elim {A} (m : M A) (Q : outcome A → FS → list event → Prop) fs :
  wp m Q fs [] → Q (result (m fs)) (files (m fs)) (log (m fs)).
Proof. done. Qed.

(** Membership in the parts of a log that are not spelled out. *)
Lemma elem_platform (t : list event) e :
  Forall (λ e, is_platform_event e = true) t → e ∈ t → is_platform_event e = true.
Proof. intros Ht He. by eapply Forall_forall in Ht. Qed.

Lemma elem_prints (lines : list string) (e : event) :
  e ∈ Print <$> lines → is_print e = true.
Proof. intros (line & -> & _)%list_elem_of_fmap. done. Qed.

Lemma elem_sweep_log ts (fs : FS) (e : event) :
  e ∈ sweep_log ts fs → is_deletion e = true.
Proof. intros He. by eapply Forall_forall in He; [|apply sweep_log_deletions]. Qed.

(** Case analysis on [H : e ∈ log]: one goal per event of the log that
    [e] can be. *)
Ltac log_in H :=
  lazymatch type of H with
  | _ ∈ _ ++ _ => apply elem_of_app in H as [H|H]; log_in H
  | _ ∈ _ :: _ =>
      apply elem_of_cons in H as [H|H]; [try discriminate H | log_in H]
  | _ ∈ [] => by apply elem_of_nil in H
  | _ ∈ (if ?b then _ else _) => destruct b; log_in H
  | _ ∈ _ <$> _ => try (apply elem_prints in H; discriminate H)
  | _ ∈ sweep_log _ _ => try (apply elem_sweep_log in H; discriminate H)
  | _ => try (eapply elem_platform in H; [discriminate H | eassumption])
  end.

(** Finds an event in a log, looking from its end. *)
Ltac log_find :=
  solve [ repeat first
            [ apply list_elem_of_here
            | apply elem_of_app; right; apply list_elem_of_here
            | apply elem_of_app; right; apply list_elem_of_further;
              apply list_elem_of_here
            | apply list_elem_of_further
            | apply elem_of_app; left ] ].

(** *** Events and what precedes them *)

Lemma preceded_nil (R : list event → event → Prop) : preceded R [].
Proof. intros before e after Heq. by destruct before. Qed.

Lemma preceded_snoc (R : list event → event → Prop) t e : preceded R t → R t e → preceded R (t ++ [e]).
Proof.
  intros Ht He before e' after Heq.
  destruct after as [|x after _] using rev_ind.
  - apply app_inj_tail in Heq as [-> ->]. done.
  - rewrite app_comm_cons, app_assoc in Heq.
    apply app_inj_tail in Heq as [-> _]. by eapply Ht.
Qed.

Lemma preceded_app (R : list event → event → Prop) t t' :
  preceded R t →
  (∀ before e after, t' = before ++ e :: after → R (t ++ before) e) →
  preceded R (t ++ t').
Proof.
  intros Ht. induction t' as [|x t' IH] using rev_ind; intros Ht'.
  - by rewrite app_nil_r.
  - rewrite app_assoc. apply preceded_snoc.
    + apply IH. intros before e after ->. apply (Ht' before e (after ++ [x])).
      by rewrite <- app_assoc.
    + apply (Ht' t' x []). done.
Qed.

(** A stretch of events on which [R] asks nothing. *)
Lemma preceded_free (R : list event → event → Prop) t t' :
  preceded R t → (∀ before e, e ∈ t' → R before e) → preceded R (t ++ t').
Proof.
  intros Ht Hfree. apply preceded_app; [done|].
  intros before e after ->. apply Hfree. apply elem_of_app. right. by left.
Qed.

(** ** Properties of [assemble] *)

(** C2. When the reads fail FASTQ validation and [force] is false,
    [assemble] returns [None] right after the validation report: the log
    holds the creation of the output directory (when it was missing), the
    validation and the single printed line about the FASTQ format; no later
    stage is called and nothing is written for the caller. *)
Theorem invalid_reads_halt reads output_directory database_path
        mash_database_path resource_specification id_mapping_filename
        species_name platform_name fs :
  let r := assemble C reads output_directory false database_path
             mash_database_path resource_specification id_mapping_filename
             species_name platform_name fs in
  AreValidFastq reads false ∈ log r →
  result r = Returned None
  ∧ log r = (if isdir output_directory fs then [] else [Mkdir output_directory])
            ++ [AreValidFastq reads false;
                Print "One or both of the reads are not in FASTQ format."]
  ∧ stdout (log r) = ["One or both of the reads are not in FASTQ format."]
  ∧ Forall (λ e, is_output e = false) (log r).
Proof.
  intros r. pattern (result r), (files r), (log r). subst r. apply wp_elim.
  wp_pipeline.
  all: intros Hin; try (exfalso; log_in Hin; fail).
  all: repeat split; repeat constructor.
Qed.

Lemma filter_platform (t : list event) :
  Forall (λ e, is_platform_event e = true) t → List.filter is_assemble t = [].
Proof.
  induction 1 as [|e t He _ IH]; [done|]. simpl. rewrite IH. by destruct e.
Qed.

Lemma filter_prints (lines : list string) :
  List.filter is_assemble (Print <$> lines : list event) = [].
Proof. by induction lines. Qed.

(** Computes [List.filter is_assemble] on a log. *)
Ltac assemble_runs :=
  rewrite ?List.filter_app; cbn [List.filter is_assemble];
  rewrite ?filter_prints;
  repeat match goal with
         | Ht : Forall _ ?t |- _ => rewrite (filter_platform t Ht)
         end;
  cbn [app].

(** C3. When [force] is false and a strategy is derived with [proceed]
    false, [assemble] returns [None] right after the report of that
    strategy, which ends the log.  For the fast strategy no assembler has
    run at all; for the expert strategy the only assembler that has run is
    the one of the fast strategy. *)
Theorem rejected_strategy_halts reads output_directory database_path
        mash_database_path resource_specification id_mapping_filename
        species_name platform_name fs strategy :
  let r := assemble C reads output_directory false database_path
             mash_database_path resource_specification id_mapping_filename
             species_name platform_name fs in
  AssemblyStrategy.proceed strategy = false →
  (CreateFastStrategy strategy ∈ log r
   ∨ ∃ quality, CreateExpertStrategy quality strategy ∈ log r) →
  result r = Returned None
  ∧ ∃ before derivation,
      log r = before ++ [derivation;
                         Print (AssemblyStrategy.report strategy);
                         Print unable_to_proceed]
      ∧ ((derivation = CreateFastStrategy strategy
          ∧ List.filter is_assemble (log r) = [])
         ∨ (∃ quality fast output,
              derivation = CreateExpertStrategy quality strategy
              ∧ CreateFastStrategy fast ∈ before
              ∧ List.filter is_assemble (log r)
                = [Assemble (AssemblyStrategy.assembler fast) output])).
Proof.
  intros r. pattern (result r), (files r), (log r). subst r. apply wp_elim.
  wp_pipeline.
  all: intros Hrejected [Hin|[quality Hin]]; try (exfalso; log_in Hin; fail).
  all: log_in Hin; simplify_eq.
  all: try congruence.
  all: split; [done|]; eexists _, _; split; [rewrite <- app_assoc; reflexivity|].
  all: first
         [ left; split; [reflexivity|]; assemble_runs; reflexivity
         | right; eexists _, _, _; split; [reflexivity|];
           split; [log_find | assemble_runs; reflexivity] ].
Qed.

Lemma Forall_platform (P : event → bool) (t : list event) :
  (∀ e, is_platform_event e = true → P e = false) →
  Forall (λ e, is_platform_event e = true) t → Forall (λ e, P e = false) t.
Proof. intros HP Ht. eapply Forall_impl; [exact Ht | auto]. Qed.

Lemma Forall_prints (P : event → bool) (lines : list string) :
  (∀ line, P (Print line) = false) →
  Forall (λ e, P e = false) (Print <$> lines).
Proof. intros HP. apply Forall_fmap, Forall_forall. intros line _. apply HP. Qed.

(** Proves that no event of a log that stops before [cleanup] satisfies
    the test [P]. *)
Ltac log_none :=
  repeat first
    [ apply Forall_nil_2
    | apply Forall_cons; split; [reflexivity|]
    | apply Forall_prints; reflexivity
    | apply Forall_app; split
    | eapply Forall_platform; [|eassumption]; by intros [] ];
  done.

(** C4. When [force] is false and the contamination evaluation has
    [success] false, [assemble] returns [None] right after the report of
    the evaluation, which ends the log: no later stage has been called, and
    the only assembler that has run is the one of the fast strategy. *)
Theorem contamination_halts reads output_directory database_path
        mash_database_path resource_specification id_mapping_filename
        species_name platform_name fs species contigs evaluation :
  let r := assemble C reads output_directory false database_path
             mash_database_path resource_specification id_mapping_filename
             species_name platform_name fs in
  Evaluation.success evaluation = false →
  EstimateContamination species contigs evaluation ∈ log r →
  result r = Returned None
  ∧ (∃ before,
       log r = before ++ [EstimateContamination species contigs evaluation;
                          Print (Evaluation.report evaluation);
                          Print unable_to_proceed])
  ∧ Forall (λ e, is_after_contamination e = false) (log r)
  ∧ (∃ fast output,
       CreateFastStrategy fast ∈ log r
       ∧ List.filter is_assemble (log r)
         = [Assemble (AssemblyStrategy.assembler fast) output]).
Proof.
  intros r. pattern (result r), (files r), (log r). subst r. apply wp_elim.
  wp_pipeline.
  all: intros Hfailed Hin; try (exfalso; log_in Hin; fail).
  all: log_in Hin; simplify_eq.
  all: try congruence.
  all: split; [done|]; split;
    [eexists; rewrite <- app_assoc; reflexivity|].
  all: split; [log_none|].
  all: eexists _, _; split; [log_find | assemble_runs; reflexivity].
Qed.


(** A run with [force] true never stops at a gate.  What can abort it is an
    exception: [os.mkdir] failing before anything is logged, an empty list
    of species candidates, or [os.rename] failing once the JSON summary is
    written. *)
Lemma forced_run_aborts reads output_directory database_path
      mash_database_path resource_specification id_mapping_filename
      species_name platform_name fs :
  let r := assemble C reads output_directory true database_path
             mash_database_path resource_specification id_mapping_filename
             species_name platform_name fs in
  result r ≠ Returned None
  ∧ ∀ e, result r = Raised e →
         (os_mkdir output_directory fs = inl e ∧ log r = [])
         ∨ (e = IndexError ∧ ∃ before, log r = before ++ [DetermineSpecies []])
         ∨ (∃ before written src fs',
              log r = before ++ [written] ∧ is_output written = true
              ∧ os_rename src (join output_directory "contigs.fasta") fs' = inl e).
Proof.
  intros r. pattern (result r), (files r), (log r). subst r. apply wp_elim.
  wp_pipeline.
  all: split; [done|]; intros e' [= <-].
  all: first
         [ left; split; [eassumption | reflexivity]
         | right; left; split; [reflexivity|]; eexists; reflexivity
         | right; right; eexists _, _, _, _;
           split; [reflexivity|]; split; [reflexivity | eassumption] ].
Qed.


(** Walks a log from its end, leaving the obligations of [R] at the
    events on which [R] asks something.  [free] proves that [R] asks
    nothing on a stretch of events, [swept] deals with the deletions of
    [cleanup]. *)
Ltac preceded_walk free swept :=
  lazymatch goal with
  | |- preceded _ [] => apply preceded_nil
  | |- preceded _ (_ ++ [_]) =>
      apply preceded_snoc;
      [ preceded_walk free swept
      | lazy beta iota delta [stage_order_at cleanup_order_at is_cleanup];
        try exact I ]
  | |- preceded _ (_ ++ Cleanup _ :: _) =>
      rewrite (cons_middle (Cleanup _)), app_assoc; preceded_walk free swept
  | |- preceded _ (_ ++ sweep_log _ _) =>
      apply preceded_app; [preceded_walk free swept | swept]
  | |- preceded _ (_ ++ _) =>
      apply preceded_free; [preceded_walk free swept | free]
  end.

(** C5. In every run of [assemble], the contamination evaluation comes
    after the run of the fast strategy's assembler, on the contigs of that
    assembler, and the quality handed to the derivation of the expert
    strategy was measured, on those contigs, before that derivation. *)
Theorem stage_order reads output_directory force database_path
        mash_database_path resource_specification id_mapping_filename
        species_name platform_name fs :
  let r := assemble C reads output_directory force database_path
             mash_database_path resource_specification id_mapping_filename
             species_name platform_name fs in
  (∀ before after species contigs evaluation,
     log r = before ++ EstimateContamination species contigs evaluation :: after →
     ∃ fast output,
       CreateFastStrategy fast ∈ before
       ∧ Assemble (AssemblyStrategy.assembler fast) output ∈ before
       ∧ contigs = Assembler.contigs_filename (AssemblyStrategy.assembler fast))
  ∧ (∀ before after quality expert,
       log r = before ++ CreateExpertStrategy quality expert :: after →
       ∃ fast,
         CreateFastStrategy fast ∈ before
         ∧ MeasureQuality
             (Assembler.contigs_filename (AssemblyStrategy.assembler fast)) quality
           ∈ before).
Proof.
  intros r.
  cut (preceded stage_order_at (log r)).
  { intros Hlog. split.
    - intros before after species contigs evaluation Heq.
      apply (Hlog _ _ _ Heq).
    - intros before after quality expert Heq. apply (Hlog _ _ _ Heq). }
  pattern (result r), (files r), (log r). subst r. apply wp_elim.
  destruct force; wp_pipeline.
  all: preceded_walk
         ltac:(intros ? [] Hin; try exact I; exfalso; log_in Hin)
         ltac:(intros ? [] ? Heq; try exact I;
               match type of Heq with
               | sweep_log ?ts ?fs = _ =>
                   pose proof (sweep_log_deletions ts fs) as Hdel
               end;
               rewrite Heq in Hdel; apply Forall_app in Hdel as [_ Hdel];
               by apply Forall_cons in Hdel as [? _]).
  all: first
         [ eexists _, _; split; [log_find|]; split; [log_find | reflexivity]
         | eexists; split; log_find ].
Qed.

(** Proves that no event of a log satisfies the test [P], when the log
    may hold the deletions of [cleanup]. *)
Lemma Forall_sweep_log (P : event → bool) ts (fs : FS) :
  (∀ e, is_deletion e = true → P e = false) →
  Forall (λ e, P e = false) (sweep_log ts fs).
Proof.
  intros HP. eapply Forall_impl; [apply sweep_log_deletions | auto].
Qed.

(** C7. In every run of [assemble], [cleanup] and each of its deletions
    come after the rename of the contigs to the canonical path.  A run that
    halts early (it returns [None], which happens only when [force] is
    false) neither calls [cleanup] nor deletes anything, and it writes no
    CSV summary, no JSON summary and no canonical contigs file. *)
Theorem cleanup_only_after_finalization reads output_directory force
        database_path mash_database_path resource_specification
        id_mapping_filename species_name platform_name fs :
  let r := assemble C reads output_directory force database_path
             mash_database_path resource_specification id_mapping_filename
             species_name platform_name fs in
  (∀ before e after,
     log r = before ++ e :: after → is_cleanup e = true →
     ∃ src, Rename src (join output_directory "contigs.fasta") ∈ before)
  ∧ (result r = Returned None →
     force = false
     ∧ Forall (λ e, is_cleanup e = false) (log r)
     ∧ Forall (λ e, is_output e = false) (log r)).
Proof.
  intros r.
  cut (preceded (cleanup_order_at output_directory) (log r)
       ∧ (result r = Returned None →
          force = false
          ∧ Forall (λ e, is_cleanup e = false) (log r)
          ∧ Forall (λ e, is_output e = false) (log r))).
  { intros [Hlog Hhalt]. split; [|done].
    intros before e after Heq He. specialize (Hlog _ _ _ Heq).
    unfold cleanup_order_at in Hlog. by rewrite He in Hlog. }
  pattern (result r), (files r), (log r). subst r. apply wp_elim.
  destruct force; wp_pipeline.
  all: split; [|intros Hhalt; try discriminate Hhalt].
  all: try (split; [reflexivity|]; split; log_none).
  all: preceded_walk
         ltac:(intros ? [] Hin; try exact I; exfalso; log_in Hin)
         ltac:(intros ? e ? _; unfold cleanup_order_at;
               destruct (is_cleanup e); [|exact I];
               eexists; apply elem_of_app; left; log_find).
  all: eexists; log_find.
Qed.

(** ** Properties of [cleanup] and of the reports *)

Local Abbreviation report_valid_fastq :=
  (@report_valid_fastq Reads FilteredReads ReadQuality AssemblyQuality
                       AssemblyDatabase Platform).
Local Abbreviation report_species :=
  (@report_species Reads FilteredReads ReadQuality AssemblyQuality
                   AssemblyDatabase Platform).
Local Abbreviation report_strategy :=
  (@report_strategy Reads FilteredReads ReadQuality AssemblyQuality
                    AssemblyDatabase Platform).
Local Abbreviation report_contamination :=
  (@report_contamination Reads FilteredReads ReadQuality AssemblyQuality
                         AssemblyDatabase Platform).

(** C6. [cleanup] never raises, and a second [cleanup] of the same output
    directory right after the first finds every guard false: it deletes
    nothing (its log holds only its own entry), raises nothing and leaves
    the filesystem as the first call left it. *)
Theorem cleanup_idempotent output_directory fs :
  let first := cleanup C output_directory fs in
  let second := cleanup C output_directory (files first) in
  result first = Returned tt
  ∧ result second = Returned tt
  ∧ files second = files first
  ∧ log second = [Cleanup output_directory].
Proof.
  intros first second. subst first second. rewrite !cleanup_run.
  cbn [result files log].
  destruct (sweep_idle (cleanup_targets C output_directory)
              (sweep (cleanup_targets C output_directory) fs)) as [Hfs Hlog].
  { intros t Ht. by apply guard_sweep. }
  by rewrite Hfs, Hlog.
Qed.

Lemma stdout_prints (lines : list string) :
  stdout (Print <$> lines : list event) = lines.
Proof.
  induction lines as [|line lines IH]; [done|].
  change (line :: stdout (Print <$> lines : list event) = line :: lines).
  by rewrite IH.
Qed.

Lemma report_species_run top rest fs :
  report_species (top :: rest) fs
  = {| result := Returned tt; files := fs;
       log := Print <$> species_lines top rest |}.
Proof.
  pose proof (wp_report_species top rest
                (λ o fs' t, o = Returned tt ∧ fs' = fs
                            ∧ t = Print <$> species_lines top rest) fs [])
    as Hwp.
  unfold wp in Hwp. cbv beta in Hwp.
  destruct (report_species (top :: rest) fs) as [o f t].
  cbn [result files log app] in Hwp. by destruct Hwp as (-> & -> & ->).
Qed.

Lemma slice_listed (top : Species.t) rest :
  slice (top :: rest) 1 (min 5 (length (top :: rest))) = take 4 rest.
Proof.
  unfold slice. cbn [drop length].
  destruct (decide (4 ≤ length rest)%nat) as [Hlen|Hlen].
  - by replace (min 5 (S (length rest)) - 1) with 4 by lia.
  - replace (min 5 (S (length rest)) - 1) with (length rest) by lia.
    rewrite firstn_all. by rewrite take_ge by lia.
Qed.

(** C8, as the code has it.  The report of a strategy with [proceed] false
    and the report of a contamination evaluation with [success] false end
    with the line "The assembly was unable to proceed."; the report of
    invalid reads is the single line about the FASTQ format, which does not
    say so. *)
Theorem failed_gate_reports strategy evaluation fs :
  AssemblyStrategy.proceed strategy = false →
  Evaluation.success evaluation = false →
  stdout (log (report_strategy strategy fs))
  = [AssemblyStrategy.report strategy; unable_to_proceed]
  ∧ stdout (log (report_contamination evaluation fs))
    = [Evaluation.report evaluation; unable_to_proceed]
  ∧ contains "was unable to proceed" unable_to_proceed = true
  ∧ stdout (log (report_valid_fastq false fs))
    = ["One or both of the reads are not in FASTQ format."]
  ∧ contains "was unable to proceed"
             "One or both of the reads are not in FASTQ format." = false.
Proof.
  intros Hproceed Hsuccess.
  unfold report_strategy, report_contamination, bind.
  rewrite Hproceed, Hsuccess. by repeat split.
Qed.

(** C10. For a non-empty list of candidates, [report_species] prints the
    warning about additional species exactly when the list has more than
    one element, and then lists the candidates at positions 1 to 4 of the
    list, at most four of them, between the line of the first candidate
    and the closing lines. *)
Theorem additional_species_listing (species_list : list Species.t) fs :
  species_list ≠ [] →
  let printed := stdout (log (report_species species_list fs)) in
  let listed := slice species_list 1 5 in
  (additional_species_warning ∈ printed ↔ 1 < length species_list)
  ∧ (length listed ≤ 4)%nat
  ∧ ∃ top closing,
      species_list !! 0 = Some top
      ∧ printed
        = ("SPECIES: " +:+ Species.str top)
          :: (if bool_decide (1 < length species_list)
              then additional_species_warning :: (Species.str <$> listed)
              else [])
          ++ closing
      ∧ (closing = [""] ∨ closing = [unknown_species_warning; ""]).
Proof.
  destruct species_list as [|top rest]; [done|]. intros _ printed listed.
  assert (Hlisted : listed = take 4 rest) by done.
  assert (Hprinted :
            ∃ closing,
              printed
              = ("SPECIES: " +:+ Species.str top)
                :: (if bool_decide (1 < length (top :: rest))
                    then additional_species_warning :: (Species.str <$> listed)
                    else [])
                ++ closing
              ∧ (closing = [""] ∨ closing = [unknown_species_warning; ""])).
  { subst printed. rewrite report_species_run. cbn [log].
    rewrite stdout_prints. unfold species_lines.
    rewrite slice_listed, Hlisted. cbn [app].
    destruct (bool_decide (Species.name _ = "Unknown")); eauto. }
  destruct Hprinted as (closing & Hprinted & Hclosing).
  split; [|split].
  - rewrite Hprinted. case_bool_decide as Hlen.
    + split; [done|]. intros _. right. by left.
    + split; [|done]. intros Hin. exfalso.
      apply elem_of_cons in Hin as [Hin|Hin]; [discriminate Hin|].
      destruct Hclosing as [-> | ->];
        repeat (apply elem_of_cons in Hin as [Hin|Hin]; [discriminate Hin|]);
        by apply elem_of_nil in Hin.
  - rewrite Hlisted, length_take. lia.
  - eauto.
Qed.

(** The test for an undetermined species reads the variable [species]
    after the loop has reused it: it tests the last candidate the loop
    listed, and the first candidate only when nothing was listed. *)
Lemma unknown_warning_tests_last_listed top rest fs :
  stdout (log (report_species (top :: rest) fs))
  = ["SPECIES: " +:+ Species.str top]
    ++ (if bool_decide (1 < length (top :: rest))
        then additional_species_warning :: (Species.str <$> take 4 rest)
        else [])
    ++ (if bool_decide (Species.name (List.last (take 4 rest) top) = "Unknown")
        then [unknown_species_warning] else [])
    ++ [""].
Proof.
  rewrite report_species_run. cbn [log]. rewrite stdout_prints.
  unfold species_lines. rewrite slice_listed.
  case_bool_decide as Hlen; [done|].
  destruct rest; [done|]. cbn [length] in Hlen. lia.
Qed.

(** ** Further properties of [assemble] *)

(** X1. When the output directory is missing and [os.mkdir] fails, [assemble]
    raises that exception at once, whatever [force]: nothing is validated,
    printed or written, and the filesystem is as it was. *)
Theorem mkdir_failure_aborts reads output_directory force database_path
        mash_database_path resource_specification id_mapping_filename
        species_name platform_name fs e :
  let r := assemble C reads output_directory force database_path
             mash_database_path resource_specification id_mapping_filename
             species_name platform_name fs in
  isdir output_directory fs = false →
  os_mkdir output_directory fs = inl e →
  result r = Raised e ∧ log r = [] ∧ files r = fs.
Proof.
  intros r Hmissing Hmkdir. pattern (result r), (files r), (log r). subst r.
  apply wp_elim. destruct force; wp_pipeline.
  all: try congruence.
  all: repeat split; congruence.
Qed.

(** X2. An output directory that exists is not created again: no [os.mkdir]
    is logged. *)
Theorem existing_directory_kept reads output_directory force database_path
        mash_database_path resource_specification id_mapping_filename
        species_name platform_name fs :
  let r := assemble C reads output_directory force database_path
             mash_database_path resource_specification id_mapping_filename
             species_name platform_name fs in
  isdir output_directory fs = true →
  ∀ path, Mkdir path ∉ log r.
Proof.
  intros r Hpresent. pattern (result r), (files r), (log r). subst r.
  apply wp_elim. destruct force; wp_pipeline.
  all: try congruence.
  all: intros path Hin; log_in Hin.
Qed.

(** X3. When [determine_species] returns no candidate, [species_list[0]] raises
    [IndexError], with or without [force]: the call that returned the empty
    list ends the log, so no species is reported and no strategy derived. *)
Theorem no_species_raises reads output_directory force database_path
        mash_database_path resource_specification id_mapping_filename
        species_name platform_name fs :
  let r := assemble C reads output_directory force database_path
             mash_database_path resource_specification id_mapping_filename
             species_name platform_name fs in
  DetermineSpecies [] ∈ log r →
  result r = Raised IndexError
  ∧ ∃ before, log r = before ++ [DetermineSpecies []].
Proof.
  intros r. pattern (result r), (files r), (log r). subst r.
  apply wp_elim. destruct force; wp_pipeline.
  all: intros Hin; try (exfalso; log_in Hin; fail).
  all: split; [reflexivity | eexists; reflexivity].
Qed.

(** X4. Without [force], a summary is returned only when the four gates have
    passed: the reads were valid, both strategies had [proceed] true and
    the contamination evaluation had [success] true. *)
Theorem unforced_summary_passed_gates reads output_directory database_path
        mash_database_path resource_specification id_mapping_filename
        species_name platform_name fs summary :
  let r := assemble C reads output_directory false database_path
             mash_database_path resource_specification id_mapping_filename
             species_name platform_name fs in
  result r = Returned (Some summary) →
  (∀ valid, AreValidFastq reads valid ∈ log r → valid = true)
  ∧ (∀ strategy, CreateFastStrategy strategy ∈ log r →
       AssemblyStrategy.proceed strategy = true)
  ∧ (∀ species contigs evaluation,
       EstimateContamination species contigs evaluation ∈ log r →
       Evaluation.success evaluation = true)
  ∧ (∀ quality strategy, CreateExpertStrategy quality strategy ∈ log r →
       AssemblyStrategy.proceed strategy = true).
Proof.
  intros r. pattern (result r), (files r), (log r). subst r.
  apply wp_elim. wp_pipeline.
  all: intros Hsummary; try discriminate Hsummary.
  all: split; [|split; [|split]].
  all: intros; match goal with Hin : _ ∈ _ |- _ => log_in Hin end.
  all: by simplify_eq.
Qed.

(** X5. With or without [force], [assemble] returns a summary exactly when the
    last thing it does is to print "Complete.". *)
Theorem summary_iff_complete reads output_directory force database_path
        mash_database_path resource_specification id_mapping_filename
        species_name platform_name fs :
  let r := assemble C reads output_directory force database_path
             mash_database_path resource_specification id_mapping_filename
             species_name platform_name fs in
  (∃ summary, result r = Returned (Some summary))
  ↔ (∃ before, log r = before ++ [Print ("Complete." +:+ nl)]).
Proof.
  intros r. pattern (result r), (files r), (log r). subst r.
  apply wp_elim. destruct force; wp_pipeline.
  all: split; [intros [summary Hsummary] | intros [before Hlog]].
  all: try discriminate Hsummary.
  all: try (eexists; reflexivity).
  all: exfalso.
  all: repeat match type of Hlog with
              | context [?h ++ ?x :: ?y :: ?l] =>
                  rewrite (cons_middle x h (y :: l)), app_assoc in Hlog
              end.
  all: try (apply app_inj_tail in Hlog as [_ Hlog]; discriminate Hlog).
  all: try (by destruct before).
Qed.

(** X6. A run that returns [None] has explained itself: [force] is false and
    the last thing the run did was to print that the reads are not in
    FASTQ format or that the assembly was unable to proceed. *)
Theorem halt_is_explained reads output_directory force database_path
        mash_database_path resource_specification id_mapping_filename
        species_name platform_name fs :
  let r := assemble C reads output_directory force database_path
             mash_database_path resource_specification id_mapping_filename
             species_name platform_name fs in
  result r = Returned None →
  force = false
  ∧ ∃ before line,
      log r = before ++ [Print line]
      ∧ (line = "One or both of the reads are not in FASTQ format."
         ∨ line = unable_to_proceed).
Proof.
  intros r. pattern (result r), (files r), (log r). subst r.
  apply wp_elim. destruct force; wp_pipeline.
  all: intros Hhalt; try discriminate Hhalt.
  all: split; [reflexivity|].
  all: first
         [ eexists _, _; split; [reflexivity|]; by left
         | eexists _, _; split;
           [rewrite (cons_middle (Print _)), app_assoc; reflexivity|]; by right ].
Qed.


Lemma filter_sweep_log ts (fs : FS) :
  List.filter is_assemble (sweep_log ts fs : list event) = [].
Proof.
  pose proof (sweep_log_deletions ts fs) as Hdel.
  induction Hdel as [|e t He _ IH]; [done|]. simpl. rewrite IH. by destruct e.
Qed.

Lemma filter_report (line line' : string) (b : bool) :
  List.filter is_assemble
    (Print line :: (if b then [] else [Print line']) : list event) = [].
Proof. by destruct b. Qed.

Ltac assemble_runs_swept :=
  rewrite ?List.filter_app, ?filter_report, ?filter_sweep_log;
  cbn [List.filter is_assemble];
  rewrite ?filter_sweep_log; assemble_runs.

(** X8. [assemble] runs at most two assemblies: none, or the assembler of the
    fast strategy alone, or that one and then the assembler of the expert
    strategy. *)
Theorem at_most_two_assemblies reads output_directory force database_path
        mash_database_path resource_specification id_mapping_filename
        species_name platform_name fs :
  let r := assemble C reads output_directory force database_path
             mash_database_path resource_specification id_mapping_filename
             species_name platform_name fs in
  List.filter is_assemble (log r) = []
  ∨ (∃ fast output,
       CreateFastStrategy fast ∈ log r
       ∧ List.filter is_assemble (log r)
         = [Assemble (AssemblyStrategy.assembler fast) output])
  ∨ (∃ fast output quality expert output',
       CreateFastStrategy fast ∈ log r
       ∧ CreateExpertStrategy quality expert ∈ log r
       ∧ List.filter is_assemble (log r)
         = [Assemble (AssemblyStrategy.assembler fast) output;
            Assemble (AssemblyStrategy.assembler expert) output']).
Proof.
  intros r. pattern (result r), (files r), (log r). subst r.
  apply wp_elim. destruct force; wp_pipeline.
  all: assemble_runs_swept.
  all: first
         [ left; reflexivity
         | right; left; eexists _, _; split; [log_find | reflexivity]
         | right; right; eexists _, _, _, _, _; split; [log_find|];
           split; [log_find | reflexivity] ].
Qed.

(** X9. Whenever [assemble] returns a summary, forced or not, the summary holds
    the first species candidate, the quality measured on the contigs of the
    expert assembler and the canonical contigs path, to which the contigs
    of the expert assembler were renamed; and [cleanup] has left none of
    its targets behind in the output directory. *)
Theorem summary_describes_run reads output_directory force database_path
        mash_database_path resource_specification id_mapping_filename
        species_name platform_name fs summary :
  let r := assemble C reads output_directory force database_path
             mash_database_path resource_specification id_mapping_filename
             species_name platform_name fs in
  let canonical := join output_directory "contigs.fasta" in
  result r = Returned (Some summary) →
  AssemblySummary.contigs_filename summary = canonical
  ∧ (∃ rest,
       DetermineSpecies (AssemblySummary.species summary :: rest) ∈ log r)
  ∧ (∃ quality expert,
       CreateExpertStrategy quality expert ∈ log r
       ∧ MeasureQuality
           (Assembler.contigs_filename (AssemblyStrategy.assembler expert))
           (AssemblySummary.assembly_quality summary) ∈ log r
       ∧ Rename (Assembler.get_contigs_filename
                   (AssemblyStrategy.assembler expert)) canonical ∈ log r)
  ∧ (∀ target, target ∈ cleanup_targets C output_directory →
       guard target (files r) = false).
Proof.
  intros r canonical. pattern (result r), (files r), (log r). subst r canonical.
  apply wp_elim. destruct force; wp_pipeline.
  all: intros Hsummary; try discriminate Hsummary.
  all: injection Hsummary as <-; cbn [AssemblySummary.contigs_filename
         AssemblySummary.species AssemblySummary.assembly_quality].
  all: split; [reflexivity|].
  all: split; [eexists; log_find|].
  all: split; [eexists _, _; split; [log_find|]; split; log_find|].
  all: intros target Htarget; by apply guard_sweep.
Qed.

(** ** Further properties of [determine_platform] *)



(** ** Further properties of [cleanup] *)

Lemma prefix_trans a b c :
  String.prefix a b = true → String.prefix b c = true → String.prefix a c = true.
Proof.
  revert b c. induction a as [|x a IH]; intros [|y b] [|z c]; simpl; try done.
  destruct (ascii_dec x y) as [->|]; [|done].
  destruct (ascii_dec y z) as [->|]; [|done]. apply IH.
Qed.

Lemma prefix_antisym a b :
  String.prefix a b = true → String.prefix b a = true → a = b.
Proof.
  revert b. induction a as [|x a IH]; intros [|y b]; simpl; try done.
  destruct (ascii_dec x y) as [->|]; [|done].
  destruct (ascii_dec y y); [|done]. intros Hab Hba. f_equal. by apply IH.
Qed.

Lemma prefix_app a b : String.prefix a (a +:+ b) = true.
Proof.
  induction a as [|x a IH]; [by destruct b|].
  simpl. by destruct (ascii_dec x x).
Qed.

Lemma prefix_join d : String.prefix d (join d "") = true.
Proof.
  unfold join. cbn [startswith String.prefix].
  destruct (bool_decide (d = "") || endswith "/" d); apply prefix_app.
Qed.

(** What is inside a directory that is inside another is inside the
    latter. *)
Lemma under_trans a b c : under a b = true → under b c = true → under a c = true.
Proof.
  unfold under, startswith.
  intros [Hab Hne%negb_true_iff%bool_decide_eq_false]%andb_true_iff
         [Hbc _]%andb_true_iff.
  pose proof (prefix_join b) as Hb.
  apply andb_true_iff. split.
  - eapply prefix_trans; [exact Hab|]. by eapply prefix_trans.
  - apply negb_true_iff, bool_decide_eq_false. intros ->.
    destruct Hne. apply prefix_antisym; [|done].
    eapply prefix_trans; [exact Hb|]. done.
Qed.

Lemma prune_under d p (fs : FS) : under d p = true → prune d fs !! p = None.
Proof.
  intros Hun. unfold prune. apply map_lookup_filter_None. right.
  intros k _ [_ Hout]. simpl in Hout. congruence.
Qed.

Lemma sweep_gone ts p (fs : FS) : fs !! p = None → sweep ts fs !! p = None.
Proof.
  intros Hp. eapply lookup_weaken_None; [exact Hp | apply sweep_subseteq].
Qed.

Lemma sweep_prunes ts d p (fs : FS) :
  DirTarget d ∈ ts → fs !! p = None ∨ fs !! d = Some Dir → under d p = true →
  sweep ts fs !! p = None.
Proof.
  intros Hin Hfs Hun. revert fs Hfs.
  induction ts as [|t ts IH]; intros fs Hfs; [by apply elem_of_nil in Hin|].
  destruct Hfs as [Hp|Hd]; [by apply sweep_gone|].
  rewrite sweep_cons.
  apply elem_of_cons in Hin as [<-|Hin].
  - apply sweep_gone. unfold sweep1. cbn [guard erase]. unfold isdir.
    rewrite bool_decide_eq_true_2 by done. by apply prune_under.
  - apply IH; [done|]. unfold sweep1.
    destruct (guard t fs) eqn:Hguard; [|by right].
    destruct (hits t d) eqn:Hhits.
    + left. destruct t as [q|q]; cbn [guard erase hits] in *.
      * apply bool_decide_eq_true in Hhits as ->.
        apply bool_decide_eq_true in Hguard. congruence.
      * apply prune_under.
        apply orb_true_iff in Hhits as [->%bool_decide_eq_true|Hqd]; [done|].
        by eapply under_trans.
    + right. by rewrite erase_spares.
Qed.

Lemma sweep_dir_gone ts d (fs : FS) :
  DirTarget d ∈ ts → fs !! d = Some Dir → sweep ts fs !! d = None.
Proof.
  intros Hin Hdir. pose proof (guard_sweep _ _ fs Hin) as Hguard.
  apply bool_decide_eq_false in Hguard.
  destruct (sweep ts fs !! d) as [k|] eqn:Hd; [|done].
  destruct Hguard. f_equal.
  eapply lookup_weaken in Hd; [|apply sweep_subseteq]. congruence.
Qed.

Lemma sweep_log_guarded ts (fs : FS) (e : event) :
  e ∈ sweep_log ts fs → ∃ t, t ∈ ts ∧ e = erased t ∧ guard t fs = true.
Proof.
  revert fs. induction ts as [|t ts IH]; intros fs He; [by apply elem_of_nil in He|].
  rewrite sweep_log_cons in He. apply elem_of_app in He as [He|He].
  - destruct (guard t fs) eqn:Hguard; [|by apply elem_of_nil in He].
    apply list_elem_of_singleton in He as ->. exists t. split; [left|done].
  - apply IH in He as (t' & Hin & -> & Hguard). exists t'.
    split; [by right|]. split; [done|].
    destruct (guard t' fs) eqn:Hfs; [done|].
    by rewrite (guard_subseteq t' fs (sweep1 t fs) (sweep1_subseteq t fs) Hfs)
      in Hguard.
Qed.

Lemma sweep_log_length ts (fs : FS) :
  (length (sweep_log (Reads:=Reads) (FilteredReads:=FilteredReads)
             (ReadQuality:=ReadQuality) (AssemblyQuality:=AssemblyQuality)
             (AssemblyDatabase:=AssemblyDatabase) (Platform:=Platform) ts fs)
   ≤ length ts)%nat.
Proof.
  revert fs. induction ts as [|t ts IH]; intros fs; [done|].
  rewrite sweep_log_cons, length_app. specialize (IH (sweep1 t fs)).
  destruct (guard t fs); cbn [length]; lia.
Qed.

(** X13. [cleanup] touches nothing but its targets: a path that is neither one
    of the nine temporary names nor inside one of the three temporary
    directories has after [cleanup] the entry it had before. *)
Theorem cleanup_spares_other_paths output_directory p fs :
  spared C output_directory p = true →
  files (cleanup C output_directory fs) !! p = fs !! p.
Proof.
  intros Hspared. rewrite cleanup_run. cbn [files]. by apply sweep_spares.
Qed.

(** X14. [cleanup] only takes entries away, and afterwards none of its nine
    targets is left: no target file is a file and no target directory is a
    directory. *)
Theorem cleanup_removes_targets output_directory fs :
  let r := cleanup C output_directory fs in
  files r ⊆ fs
  ∧ ∀ target, target ∈ cleanup_targets C output_directory →
              guard target (files r) = false.
Proof.
  intros r. subst r. rewrite cleanup_run. cbn [files]. split.
  - apply sweep_subseteq.
  - intros target Hin. by apply guard_sweep.
Qed.

(** X15. A temporary directory that exists when [cleanup] starts is gone
    afterwards together with everything inside it, also when another
    target was deleted first. *)
Theorem cleanup_empties_directories output_directory d fs :
  DirTarget d ∈ cleanup_targets C output_directory →
  isdir d fs = true →
  let r := cleanup C output_directory fs in
  files r !! d = None ∧ ∀ p, under d p = true → files r !! p = None.
Proof.
  intros Hin Hdir r. subst r. rewrite cleanup_run. cbn [files].
  apply bool_decide_eq_true in Hdir. split.
  - by apply sweep_dir_gone.
  - intros p Hun. apply (sweep_prunes _ d); auto.
Qed.

(** X16. The log of [cleanup] is its own entry followed by deletions only, at
    most nine of them; every deletion is that of a target which existed,
    as a file for [os.remove] and as a directory for [rmtree], when
    [cleanup] started. *)
Theorem cleanup_deletes_existing_targets output_directory fs :
  ∃ deletions,
    log (cleanup C output_directory fs) = Cleanup output_directory :: deletions
    ∧ (length deletions ≤ 9)%nat
    ∧ (∀ path, Remove path ∈ deletions →
         FileTarget path ∈ cleanup_targets C output_directory
         ∧ isfile path fs = true)
    ∧ (∀ path, Rmtree path ∈ deletions →
         DirTarget path ∈ cleanup_targets C output_directory
         ∧ isdir path fs = true)
    ∧ Forall (λ e, is_deletion e = true) deletions.
Proof.
  rewrite cleanup_run. cbn [log]. eexists. split; [reflexivity|].
  split; [|split; [|split]].
  - etrans; [apply sweep_log_length|]. done.
  - intros path (t & Hin & Ht & Hguard)%sweep_log_guarded.
    destruct t; simplify_eq/=. done.
  - intros path (t & Hin & Ht & Hguard)%sweep_log_guarded.
    destruct t; simplify_eq/=. done.
  - apply sweep_log_deletions.
Qed.

(** ** Further properties of [report_species] *)


(** X12. For a single candidate the warning about an undetermined species is
    printed exactly when the candidate is named "Unknown". *)
Theorem single_candidate_warning (top : Species.t) fs :
  unknown_species_warning ∈ stdout (log (report_species [top] fs))
  ↔ Species.name top = "Unknown".
Proof.
  rewrite unknown_warning_tests_last_listed. cbn [length take List.last app].
  rewrite bool_decide_eq_false_2 by (cbn; lia). cbn [app].
  case_bool_decide as Hname; split; try done.
  - intros _. right. by left.
  - intros Hin. exfalso.
    repeat (apply elem_of_cons in Hin as [Hin|Hin]; [discriminate Hin|]).
    by apply elem_of_nil in Hin.
Qed.

(** X17. The CSV summary holds what this run computed: the names of the
    assemblers of the fast and of the expert strategy, in that order, with
    the qualities measured on the contigs of each. *)
Theorem csv_rows_were_measured reads output_directory force database_path
        mash_database_path resource_specification id_mapping_filename
        species_name platform_name fs :
  let r := assemble C reads output_directory force database_path
             mash_database_path resource_specification id_mapping_filename
             species_name platform_name fs in
  ∀ names qualities,
    WriteCsv names qualities ∈ log r →
    ∃ fast expert fast_quality expert_quality,
      names = [Assembler.name (AssemblyStrategy.assembler fast);
               Assembler.name (AssemblyStrategy.assembler expert)]
      ∧ qualities = [fast_quality; expert_quality]
      ∧ CreateFastStrategy fast ∈ log r
      ∧ CreateExpertStrategy fast_quality expert ∈ log r
      ∧ MeasureQuality
          (Assembler.contigs_filename (AssemblyStrategy.assembler fast))
          fast_quality ∈ log r
      ∧ MeasureQuality
          (Assembler.contigs_filename (AssemblyStrategy.assembler expert))
          expert_quality ∈ log r.
Proof.
  intros r. pattern (result r), (files r), (log r). subst r.
  apply wp_elim. destruct force; wp_pipeline.
  all: intros names qualities Hin; log_in Hin.
  all: injection Hin as -> ->.
  all: eexists _, _, _, _; split; [reflexivity|]; split; [reflexivity|].
  all: repeat split; log_find.
Qed.

(** X18. The JSON summary holds what this run was given, computed and reported:
    the reads passed to [assemble], the platform that was reported, the
    read quality and the database obtained earlier, the first species
    candidate, and the quality measured on the contigs of the expert
    assembler together with its two evaluations. *)
Theorem json_fields_were_computed reads output_directory force database_path
        mash_database_path resource_specification id_mapping_filename
        species_name platform_name fs :
  let r := assemble C reads output_directory force database_path
             mash_database_path resource_specification id_mapping_filename
             species_name platform_name fs in
  ∀ platform sp reads' read_quality quality heuristic machine_learning database,
    WriteJson platform sp reads' read_quality quality heuristic
              machine_learning database ∈ log r →
    reads' = reads
    ∧ Print ("Sequencing Platform: " +:+ value C platform) ∈ log r
    ∧ SummarizeQuality read_quality ∈ log r
    ∧ OpenDatabase database_path database ∈ log r
    ∧ (∃ rest, DetermineSpecies (sp :: rest) ∈ log r)
    ∧ (∃ fast_quality expert,
         CreateExpertStrategy fast_quality expert ∈ log r
         ∧ MeasureQuality
             (Assembler.contigs_filename (AssemblyStrategy.assembler expert))
             quality ∈ log r)
    ∧ MLEvaluate sp quality machine_learning ∈ log r
    ∧ HeuristicEvaluate quality heuristic ∈ log r.
Proof.
  intros r. pattern (result r), (files r), (log r). subst r.
  apply wp_elim. destruct force; wp_pipeline.
  all: intros pf sp rd rq q he ml db Hin; log_in Hin.
  all: injection Hin as -> -> -> -> -> -> -> ->.
  all: split; [reflexivity|].
  all: repeat match goal with
              | |- _ ∧ _ => split
              | |- ∃ _, _ => eexists
              end; log_find.
Qed.


(** ** What [force] changes *)

Lemma log_bind_nonempty {A B} (m : M A) (k : A → M B) fs :
  log (m fs) ≠ [] → log (bind m k fs) ≠ [].
Proof.
  intros Hm. unfold bind. cbv zeta.
  destruct (result (m fs)); cbn [log]; [|done].
  intros [Hnil _]%app_eq_nil. done.
Qed.

(** [determine_platform] always leaves something in the log. *)
Lemma determine_platform_logs reads platform_name fs :
  log (determine_platform C reads platform_name fs) ≠ [].
Proof.
  pattern (result (determine_platform C reads platform_name fs)),
          (files (determine_platform C reads platform_name fs)),
          (log (determine_platform C reads platform_name fs)).
  apply wp_elim. unfold determine_platform. wp_step.
  destruct (truthy platform_name) as [name|].
  - repeat wp_step.
    repeat match goal with
           | |- wp (if ?b then _ else _) _ _ _ => destruct b
           | _ => wp_step
           end.
    all: intros Hnil; apply (f_equal length) in Hnil;
      rewrite ?length_app in Hnil; cbn [length] in Hnil; lia.
  - repeat wp_step. rewrite bool_decide_eq_true_2 by done. repeat wp_step.
    intros Hnil; apply (f_equal length) in Hnil;
      rewrite ?length_app in Hnil; cbn [length] in Hnil; lia.
Qed.

Lemma continues_ret {A} (a : A) :
  continues (ret (Some a) : M (option A)) (ret (Some a)).
Proof. intros fs. split; [done|]. split; done. Qed.

Lemma continues_bind {A B} (m : M A) (k k' : A → M (option B)) :
  (∀ a, continues (k a) (k' a)) → continues (bind m k) (bind m k').
Proof.
  intros Hk fs. unfold bind. cbv zeta.
  destruct (result (m fs)) as [a|e]; [|by repeat split].
  destruct (Hk a (files (m fs))) as (Hforced & Hsame & Hmore).
  cbn [result log]. split; [done|]. split.
  - intros Hreturns. by rewrite (Hsame Hreturns).
  - intros Hhalts. destruct (Hmore Hhalts) as (rest & Hrest & Hlog).
    exists rest. split; [done|]. by rewrite Hlog, app_assoc.
Qed.

Lemma continues_gate {A} (passed : bool) (k k' : M (option A)) :
  continues k k' →
  (∀ fs, log (k' fs) ≠ []) →
  continues (if negb passed && negb false then ret None else k)
            (if negb passed && negb true then ret None else k').
Proof.
  intros Hk Hlogs. destruct passed; cbn [negb andb]; [done|].
  intros fs. destruct (Hk fs) as (Hforced & _ & _).
  split; [done|]. split; [done|]. intros _. by exists (log (k' fs)).
Qed.

(** X20. [force] matters at a gate that fails, and only there.  The run with
    [force] true never returns [None].  When the run with [force] false does
    not return [None], the forced run is the very same run.  When it
    returns [None], the forced run makes the same calls and prints the same
    lines first, and then does more. *)
Theorem force_only_continues reads output_directory database_path
        mash_database_path resource_specification id_mapping_filename
        species_name platform_name fs :
  let unforced := assemble C reads output_directory false database_path
                    mash_database_path resource_specification
                    id_mapping_filename species_name platform_name fs in
  let forced := assemble C reads output_directory true database_path
                  mash_database_path resource_specification
                  id_mapping_filename species_name platform_name fs in
  result forced ≠ Returned None
  ∧ (result unforced ≠ Returned None → forced = unforced)
  ∧ (result unforced = Returned None →
     ∃ rest, rest ≠ [] ∧ log forced = log unforced ++ rest).
Proof.
  intros unforced forced. subst unforced forced. revert fs.
  change (continues
            (assemble C reads output_directory false database_path
               mash_database_path resource_specification id_mapping_filename
               species_name platform_name)
            (assemble C reads output_directory true database_path
               mash_database_path resource_specification id_mapping_filename
               species_name platform_name)).
  unfold assemble. cbv zeta.
  repeat first
    [ apply continues_gate;
      [| intros ?; apply log_bind_nonempty;
         first [ apply determine_platform_logs
               | unfold call, print; cbn [log]; discriminate ] ]
    | apply continues_bind; intros ?
    | apply continues_ret ].
Qed.

End Logic.

(** ** The pipeline at work: concrete runs

    Runs of [assemble] in the concrete environment, on the reads
    ["reads.fastq"] and the output directory ["out"], from an empty
    filesystem. *)

Ltac log_has := vm_compute; repeat constructor.


Example forced_run_files :
  map_to_list (files (demo_run true false [ecoli] false false false ∅))
  = [("out/contigs.fasta", File); ("out/assembly_statistics.csv", File);
     ("out/assembly_info.json", File); ("out", Dir)].
Proof. by vm_compute. Qed.

(** Invalid reads, [force] false: the run stops after the validation. *)
Lemma invalid_reads_halt_witness :
  let r := demo_run false false [ecoli] true true true ∅ in
  AreValidFastq "reads.fastq" false ∈ log r
  ∧ result r = Returned None
  ∧ log r = [Mkdir "out"; AreValidFastq "reads.fastq" false;
             Print "One or both of the reads are not in FASTQ format."].
Proof.
  intros r; subst r; unfold demo_run.
  match goal with |- ?H ∧ _ => assert (Hinvalid : H) by log_has end.
  split; [exact Hinvalid|].
  destruct (invalid_reads_halt _ _ _ _ _ _ _ _ _ _ Hinvalid)
    as (Hresult & Hlog & _).
  split; [exact Hresult | exact Hlog].
Defined.

(** The expert strategy is rejected, [force] false: only the fast assembler
    has run. *)
Lemma rejected_strategy_halts_witness :
  let r := demo_run false true [ecoli] true true false ∅ in
  AssemblyStrategy.proceed (strategy false spades) = false
  ∧ (CreateFastStrategy (strategy false spades) ∈ log r
     ∨ ∃ quality, CreateExpertStrategy quality (strategy false spades) ∈ log r)
  ∧ result r = Returned None.
Proof.
  intros r; subst r; unfold demo_run.
  split; [reflexivity|].
  match goal with
  | |- ?H ∧ _ => assert (Hderived : H) by (right; exists 23; log_has)
  end.
  split; [exact Hderived|].
  destruct (rejected_strategy_halts _ _ _ _ _ _ _ _ _ _ (strategy false spades)
              eq_refl Hderived)
    as [Hresult _].
  exact Hresult.
Defined.

(** Contamination is found, [force] false. *)
Lemma contamination_halts_witness :
  let r := demo_run false true [ecoli] true false true ∅ in
  Evaluation.success (evaluation false) = false
  ∧ EstimateContamination ecoli "out/skesa/contigs.fasta" (evaluation false) ∈ log r
  ∧ result r = Returned None.
Proof.
  intros r; subst r; unfold demo_run.
  split; [reflexivity|].
  match goal with |- ?H ∧ _ => assert (Hin : H) by log_has end.
  split; [exact Hin|].
  destruct (contamination_halts _ _ _ _ _ _ _ _ _ _ ecoli "out/skesa/contigs.fasta"
              (evaluation false) eq_refl Hin)
    as [Hresult _].
  exact Hresult.
Defined.

(** In a complete run the contamination evaluation finds the run of the
    fast assembler before it. *)
Lemma stage_order_witness :
  let r := demo_run false true [ecoli] true true true ∅ in
  log r = take 16 (log r)
          ++ EstimateContamination ecoli "out/skesa/contigs.fasta" (evaluation true)
          :: drop 17 (log r)
  ∧ ∃ fast output,
      Assemble (AssemblyStrategy.assembler fast) output ∈ take 16 (log r).
Proof.
  intros r; subst r; unfold demo_run.
  match goal with |- ?H ∧ _ => assert (Heq : H) by (by vm_compute) end.
  split; [exact Heq|].
  destruct (stage_order
              (demo true [ecoli] (strategy true skesa) (strategy true spades)
                    (evaluation true))
              "reads.fastq" "out" false "db" "mash.msh" 4 "ids.json" None None ∅)
    as [Hcontamination _].
  destruct (Hcontamination _ _ _ _ _ Heq) as (fast & output & _ & Hin & _).
  exists fast, output. exact Hin.
Defined.

(** In a complete run [cleanup] comes after the rename. *)
Lemma cleanup_only_after_finalization_witness :
  let r := demo_run false true [ecoli] true true true ∅ in
  log r = take 36 (log r) ++ Cleanup "out" :: drop 37 (log r)
  ∧ ∃ src, Rename src (join "out" "contigs.fasta") ∈ take 36 (log r).
Proof.
  intros r; subst r; unfold demo_run.
  match goal with |- ?H ∧ _ => assert (Heq : H) by (by vm_compute) end.
  split; [exact Heq|].
  destruct (cleanup_only_after_finalization
              (demo true [ecoli] (strategy true skesa) (strategy true spades)
                    (evaluation true))
              "reads.fastq" "out" false "db" "mash.msh" 4 "ids.json" None None ∅)
    as [Hcleanup _].
  exact (Hcleanup _ _ _ Heq eq_refl).
Defined.

Example cleanup_twice :
  let first := cleanup (demo true [ecoli] (strategy true skesa)
                             (strategy true spades) (evaluation true)) "out"
                 (touch "out/fastp.log" (mkdirs "out/skesa"
                    (touch "out/skesa/contigs.fasta" (mkdirs "out" ∅)))) in
  log first = [Cleanup "out"; Remove "out/fastp.log"; Rmtree "out/skesa"]
  ∧ map_to_list (files first) = [("out", Dir)].
Proof. by vm_compute. Qed.

(** C8, as stated, fails on the validation gate: the only line that
    [report_valid_fastq] prints for invalid reads does not contain "was
    unable to proceed". *)
Lemma validation_report_lacks_unable_to_proceed :
  ¬ (∀ (valid : bool) fs,
       valid = false →
       ∃ line, line ∈ stdout (log (demo_report_valid_fastq valid fs))
               ∧ contains "was unable to proceed" line = true).
Proof.
  intros Hclaim. destruct (Hclaim false ∅ eq_refl) as (line & Hin & Hcontains).
  apply elem_of_cons in Hin as [-> | Hin]; [by vm_compute in Hcontains|].
  by apply elem_of_nil in Hin.
Qed.

Lemma failed_gate_reports_witness :
  AssemblyStrategy.proceed (strategy false skesa) = false
  ∧ Evaluation.success (evaluation false) = false
  ∧ stdout (log (demo_report_strategy (strategy false skesa) ∅))
    = ["Strategy: Skesa."; unable_to_proceed]
  ∧ stdout (log (demo_report_contamination (evaluation false) ∅))
    = ["Contamination checked."; unable_to_proceed].
Proof.
  split; [reflexivity|]. split; [reflexivity|].
  destruct (failed_gate_reports (Reads:=string) (FilteredReads:=list string)
              (ReadQuality:=nat) (AssemblyQuality:=nat) (AssemblyDatabase:=string)
              (Platform:=demo_platform)
              (strategy false skesa) (evaluation false) ∅ eq_refl eq_refl)
    as (Hstrategy & Hcontamination & _).
  split; [exact Hstrategy | exact Hcontamination].
Defined.

(** C9 fails on the code.  The first candidate is named "Unknown" and a
    second candidate follows: [report_species] prints no warning about an
    undetermined species, because its test reads the loop variable, which
    holds the second candidate.  The pipeline goes on to the fast
    strategy. *)
Lemma unknown_top_candidate_not_reported :
  let r := demo_run false true [unknown; ecoli] true true true ∅ in
  Species.name unknown = "Unknown"
  ∧ stdout (log (demo_report_species [unknown; ecoli] ∅))
    = ["SPECIES: Unknown (p = 0.0)"; additional_species_warning;
       "Escherichia coli (p = 0.0)"; ""]
  ∧ DetermineSpecies [unknown; ecoli] ∈ log r
  ∧ (unknown_species_warning ∉ stdout (log r))
  ∧ CreateFastStrategy (strategy true skesa) ∈ log r.
Proof.
  intros r; subst r.
  split; [reflexivity|]. split; [by vm_compute|]. split; [log_has|].
  split; [|log_has].
  apply (bool_decide_unpack _). by vm_compute.
Qed.

(** With a single candidate named "Unknown" the warning is printed. *)
Example unknown_only_candidate_reported :
  stdout (log (demo_report_species [unknown] ∅))
  = ["SPECIES: Unknown (p = 0.0)"; unknown_species_warning; ""].
Proof. by vm_compute. Qed.

(** The warning is also printed for a known first candidate when the last
    listed candidate is named "Unknown". *)
Example known_top_candidate_reported_unknown :
  stdout (log (demo_report_species [ecoli; unknown] ∅))
  = ["SPECIES: Escherichia coli (p = 0.0)"; additional_species_warning;
     "Unknown (p = 0.0)"; unknown_species_warning; ""].
Proof. by vm_compute. Qed.

Lemma additional_species_listing_witness :
  let candidates := [ecoli; species "A"; species "B"; species "C"; species "D";
                     species "E"] in
  candidates ≠ []
  ∧ stdout (log (demo_report_species candidates ∅))
    = ["SPECIES: Escherichia coli (p = 0.0)"; additional_species_warning;
       "A (p = 0.0)"; "B (p = 0.0)"; "C (p = 0.0)"; "D (p = 0.0)"; ""].
Proof.
  intros candidates.
  assert (Hne : candidates ≠ []) by discriminate.
  split; [exact Hne|].
  destruct (additional_species_listing (Reads:=string) (FilteredReads:=list string)
              (ReadQuality:=nat) (AssemblyQuality:=nat) (AssemblyDatabase:=string)
              (Platform:=demo_platform) candidates ∅ Hne)
    as (_ & _ & top & closing & _ & Hprinted & _).
  by vm_compute.
Defined.

(** ** Further runs in the concrete environment *)

(** The output directory cannot be created because a file has its name. *)
Lemma mkdir_failure_aborts_witness :
  let fs := touch "out" ∅ in
  let r := demo_run false true [ecoli] true true true fs in
  isdir "out" fs = false
  ∧ os_mkdir "out" fs = inl (FileExistsError "out")
  ∧ result r = Raised (FileExistsError "out")
  ∧ log r = [].
Proof.
  intros fs r; subst fs r; unfold demo_run.
  match goal with |- ?H ∧ _ => assert (Hmissing : H) by (by vm_compute) end.
  split; [exact Hmissing|].
  match goal with |- ?H ∧ _ => assert (Hfails : H) by (by vm_compute) end.
  split; [exact Hfails|].
  destruct (mkdir_failure_aborts
              (demo true [ecoli] (strategy true skesa) (strategy true spades)
                    (evaluation true))
              "reads.fastq" "out" false "db" "mash.msh" 4 "ids.json" None None
              (touch "out" ∅) (FileExistsError "out") Hmissing Hfails)
    as (Hresult & Hlog & _).
  split; [exact Hresult | exact Hlog].
Defined.

(** The output directory is there already. *)
Lemma existing_directory_kept_witness :
  let fs := mkdirs "out" ∅ in
  let r := demo_run false true [ecoli] true true true fs in
  isdir "out" fs = true ∧ Mkdir "out" ∉ log r.
Proof.
  intros fs r; subst fs r; unfold demo_run.
  match goal with |- ?H ∧ _ => assert (Hthere : H) by (by vm_compute) end.
  split; [exact Hthere|].
  exact (existing_directory_kept
           (demo true [ecoli] (strategy true skesa) (strategy true spades)
                 (evaluation true))
           "reads.fastq" "out" false "db" "mash.msh" 4 "ids.json" None None
           (mkdirs "out" ∅) Hthere "out").
Defined.

(** No species candidate is found. *)
Lemma no_species_raises_witness :
  let r := demo_run true true [] true true true ∅ in
  DetermineSpecies [] ∈ log r ∧ result r = Raised IndexError.
Proof.
  intros r; subst r; unfold demo_run.
  match goal with |- ?H ∧ _ => assert (Hin : H) by log_has end.
  split; [exact Hin|].
  destruct (no_species_raises _ _ _ _ _ _ _ _ _ _ _ Hin) as [Hresult _].
  exact Hresult.
Defined.

(** A complete run with [force] false: every gate was passed. *)
Lemma unforced_summary_passed_gates_witness :
  let r := demo_run false true [ecoli] true true true ∅ in
  let summary := {| AssemblySummary.species := ecoli;
                    AssemblySummary.assembly_quality := 24;
                    AssemblySummary.contigs_filename := "out/contigs.fasta" |} in
  result r = Returned (Some summary)
  ∧ (∀ valid, AreValidFastq "reads.fastq" valid ∈ log r → valid = true).
Proof.
  intros r summary; subst r summary; unfold demo_run.
  match goal with |- ?H ∧ _ => assert (Hresult : H) by (by vm_compute) end.
  split; [exact Hresult|].
  destruct (unforced_summary_passed_gates _ _ _ _ _ _ _ _ _ _ _ Hresult)
    as [Hvalid _].
  exact Hvalid.
Defined.

(** A run that halts at the contamination gate says so in its last line. *)
Lemma halt_is_explained_witness :
  let r := demo_run false true [ecoli] true false true ∅ in
  result r = Returned None
  ∧ ∃ before line,
      log r = before ++ [Print line]
      ∧ (line = "One or both of the reads are not in FASTQ format."
         ∨ line = unable_to_proceed).
Proof.
  intros r; subst r; unfold demo_run.
  match goal with |- ?H ∧ _ => assert (Hresult : H) by (by vm_compute) end.
  split; [exact Hresult|].
  destruct (halt_is_explained _ _ _ _ _ _ _ _ _ _ _ Hresult) as [_ Hline].
  exact Hline.
Defined.

(** The summary of a complete run names the canonical contigs file. *)
Lemma summary_describes_run_witness :
  let r := demo_run false true [ecoli] true true true ∅ in
  let summary := {| AssemblySummary.species := ecoli;
                    AssemblySummary.assembly_quality := 24;
                    AssemblySummary.contigs_filename := "out/contigs.fasta" |} in
  result r = Returned (Some summary)
  ∧ AssemblySummary.contigs_filename summary = join "out" "contigs.fasta"
  ∧ ∃ quality expert,
      CreateExpertStrategy quality expert ∈ log r
      ∧ MeasureQuality
          (Assembler.contigs_filename (AssemblyStrategy.assembler expert))
          (AssemblySummary.assembly_quality summary) ∈ log r
      ∧ Rename (Assembler.get_contigs_filename (AssemblyStrategy.assembler expert))
               (join "out" "contigs.fasta") ∈ log r.
Proof.
  intros r summary; subst r summary; unfold demo_run.
  match goal with |- ?H ∧ _ => assert (Hresult : H) by (by vm_compute) end.
  split; [exact Hresult|].
  destruct (summary_describes_run _ _ _ _ _ _ _ _ _ _ _ _ Hresult)
    as (Hcanonical & _ & Hexpert & _).
  split; [exact Hcanonical | exact Hexpert].
Defined.


(** The contigs under the canonical name survive [cleanup]. *)
Lemma cleanup_spares_other_paths_witness :
  let C := demo true [ecoli] (strategy true skesa) (strategy true spades)
                (evaluation true) in
  let fs := touch "out/contigs.fasta" (touch "out/fastp.log" (mkdirs "out" ∅)) in
  spared C "out" "out/contigs.fasta" = true
  ∧ files (cleanup C "out" fs) !! "out/contigs.fasta" = Some File.
Proof.
  intros C fs; subst C fs.
  match goal with |- ?H ∧ _ => assert (Hspared : H) by (by vm_compute) end.
  split; [exact Hspared|].
  rewrite (cleanup_spares_other_paths _ _ _ _ Hspared). by vm_compute.
Defined.

(** The directory of the fast assembler is removed with its contents. *)
Lemma cleanup_empties_directories_witness :
  let C := demo true [ecoli] (strategy true skesa) (strategy true spades)
                (evaluation true) in
  let fs := touch "out/skesa/contigs.fasta" (mkdirs "out/skesa" (mkdirs "out" ∅)) in
  DirTarget "out/skesa" ∈ cleanup_targets C "out"
  ∧ isdir "out/skesa" fs = true
  ∧ under "out/skesa" "out/skesa/contigs.fasta" = true
  ∧ files (cleanup C "out" fs) !! "out/skesa/contigs.fasta" = None.
Proof.
  intros C fs; subst C fs.
  match goal with |- ?H ∧ _ => assert (Hin : H) by log_has end.
  split; [exact Hin|].
  match goal with |- ?H ∧ _ => assert (Hdir : H) by (by vm_compute) end.
  split; [exact Hdir|].
  match goal with |- ?H ∧ _ => assert (Hunder : H) by (by vm_compute) end.
  split; [exact Hunder|].
  destruct (cleanup_empties_directories _ _ _ _ Hin Hdir) as [_ Hinside].
  exact (Hinside _ Hunder).
Defined.


(** The rows of the CSV summary of a complete run. *)
Lemma csv_rows_were_measured_witness :
  let r := demo_run false true [ecoli] true true true ∅ in
  WriteCsv ["Skesa"; "SPAdes"] [23; 24] ∈ log r
  ∧ ∃ fast expert,
      ["Skesa"; "SPAdes"] = [Assembler.name (AssemblyStrategy.assembler fast);
                             Assembler.name (AssemblyStrategy.assembler expert)]
      ∧ MeasureQuality
          (Assembler.contigs_filename (AssemblyStrategy.assembler fast)) 23 ∈ log r
      ∧ MeasureQuality
          (Assembler.contigs_filename (AssemblyStrategy.assembler expert)) 24 ∈ log r.
Proof.
  intros r; subst r; unfold demo_run.
  match goal with |- ?H ∧ _ => assert (Hin : H) by log_has end.
  split; [exact Hin|].
  destruct (csv_rows_were_measured
              (demo true [ecoli] (strategy true skesa) (strategy true spades)
                    (evaluation true))
              "reads.fastq" "out" false "db" "mash.msh" 4 "ids.json" None None ∅
              _ _ Hin)
    as (fast & expert & fast_quality & expert_quality & Hnames & Hqualities
        & _ & _ & Hfast & Hexpert).
  injection Hqualities as <- <-.
  exists fast, expert. split; [exact Hnames|]. split; [exact Hfast | exact Hexpert].
Defined.

(** The fields of the JSON summary of a complete run. *)
Lemma json_fields_were_computed_witness :
  let r := demo_run false true [ecoli] true true true ∅ in
  let heuristic := {| Evaluation.success := true;
                      Evaluation.report := "Heuristic: fine." |} in
  let machine_learning := {| Evaluation.success := true;
                             Evaluation.report := "ML: fine." |} in
  WriteJson Illumina ecoli "reads.fastq" 30 24 heuristic machine_learning "db"
    ∈ log r
  ∧ Print "Sequencing Platform: Illumina" ∈ log r
  ∧ SummarizeQuality 30 ∈ log r
  ∧ OpenDatabase "db" "db" ∈ log r
  ∧ HeuristicEvaluate 24 heuristic ∈ log r.
Proof.
  intros r heuristic machine_learning; subst r heuristic machine_learning;
    unfold demo_run.
  match goal with |- ?H ∧ _ => assert (Hin : H) by log_has end.
  split; [exact Hin|].
  destruct (json_fields_were_computed
              (demo true [ecoli] (strategy true skesa) (strategy true spades)
                    (evaluation true))
              "reads.fastq" "out" false "db" "mash.msh" 4 "ids.json" None None ∅
              _ _ _ _ _ _ _ _ Hin)
    as (_ & Hplatform & Hread_quality & Hdatabase & _ & _ & _ & Hheuristic).
  split; [exact Hplatform|]. split; [exact Hread_quality|].
  split; [exact Hdatabase | exact Hheuristic].
Defined.


(** The single candidate is named "Unknown": the warning is printed. *)
Lemma single_candidate_warning_witness :
  Species.name unknown = "Unknown"
  ∧ unknown_species_warning ∈ stdout (log (demo_report_species [unknown] ∅)).
Proof.
  assert (Hname : Species.name unknown = "Unknown") by reflexivity.
  split; [exact Hname|].
  exact (proj2 (single_candidate_warning (Reads:=string)
                  (FilteredReads:=list string) (ReadQuality:=nat)
                  (AssemblyQuality:=nat) (AssemblyDatabase:=string)
                  (Platform:=demo_platform) unknown ∅) Hname).
Defined.

(** After [cleanup] the log of the read filter is not a file any more. *)
Lemma cleanup_removes_targets_witness :
  let C := demo true [ecoli] (strategy true skesa) (strategy true spades)
                (evaluation true) in
  let fs := touch "out/fastp.log" (mkdirs "out" ∅) in
  FileTarget "out/fastp.log" ∈ cleanup_targets C "out"
  ∧ isfile "out/fastp.log" (files (cleanup C "out" fs)) = false.
Proof.
  intros C fs; subst C fs.
  match goal with |- ?H ∧ _ => assert (Hin : H) by log_has end.
  split; [exact Hin|].
  destruct (cleanup_removes_targets
              (demo true [ecoli] (strategy true skesa) (strategy true spades)
                    (evaluation true))
              "out" (touch "out/fastp.log" (mkdirs "out" ∅)))
    as [_ Hgone].
  exact (Hgone _ Hin).
Defined.

(** The log of the read filter is removed because it was there. *)
Lemma cleanup_deletes_existing_targets_witness :
  let C := demo true [ecoli] (strategy true skesa) (strategy true spades)
                (evaluation true) in
  let fs := touch "out/fastp.log" (mkdirs "out" ∅) in
  Remove "out/fastp.log" ∈ log (cleanup C "out" fs)
  ∧ isfile "out/fastp.log" fs = true.
Proof.
  intros C fs; subst C fs.
  match goal with |- ?H ∧ _ => assert (Hin : H) by log_has end.
  split; [exact Hin|].
  destruct (cleanup_deletes_existing_targets
              (demo true [ecoli] (strategy true skesa) (strategy true spades)
                    (evaluation true))
              "out" (touch "out/fastp.log" (mkdirs "out" ∅)))
    as (deletions & Hlog & _ & Hremoved & _).
  rewrite Hlog in Hin. apply elem_of_cons in Hin as [Hin|Hin]; [discriminate Hin|].
  destruct (Hremoved _ Hin) as [_ Hfile]. exact Hfile.
Defined.

(** A complete run ends with the line "Complete.". *)
Lemma summary_iff_complete_witness :
  let r := demo_run false true [ecoli] true true true ∅ in
  (∃ summary, result r = Returned (Some summary))
  ∧ ∃ before, log r = before ++ [Print ("Complete." +:+ nl)].
Proof.
  intros r; subst r; unfold demo_run.
  match goal with
  | |- ?H ∧ _ => assert (Hsummary : H) by (eexists; by vm_compute)
  end.
  split; [exact Hsummary|].
  exact (proj1 (summary_iff_complete
                  (demo true [ecoli] (strategy true skesa) (strategy true spades)
                        (evaluation true))
                  "reads.fastq" "out" false "db" "mash.msh" 4 "ids.json" None None ∅)
           Hsummary).
Defined.


(** Forcing a run that halts at the validation gate: the forced run begins
    as the halted one did and does more. *)
Lemma force_only_continues_witness :
  let unforced := demo_run false false [ecoli] true true true ∅ in
  let forced := demo_run true false [ecoli] true true true ∅ in
  result unforced = Returned None
  ∧ ∃ rest, rest ≠ [] ∧ log forced = log unforced ++ rest.
Proof.
  intros unforced forced; subst unforced forced; unfold demo_run.
  match goal with |- ?H ∧ _ => assert (Hhalts : H) by (by vm_compute) end.
  split; [exact Hhalts|].
  destruct (force_only_continues
              (demo false [ecoli] (strategy true skesa) (strategy true spades)
                    (evaluation true))
              "reads.fastq" "out" "db" "mash.msh" 4 "ids.json" None None ∅)
    as (_ & _ & Hmore).
  exact (Hmore Hhalts).
Defined.


Example forced_run_blocked_directory :
  let r := demo_run true true [ecoli] true true true (touch "out" ∅) in
  result r = Raised (FileExistsError "out") ∧ log r = [].
Proof. by vm_compute. Qed.

(** A forced run with no species candidate raises as well. *)
Example forced_run_without_species :
  result (demo_run true true [] true true true ∅) = Raised IndexError.
Proof. by vm_compute. Qed.

(** An output directory spelled with a separator at its end. *)
Example run_in_directory_with_separator :
  let r := assemble (demo true [ecoli] (strategy true skesa)
                          (strategy true spades) (evaluation true))
             "reads.fastq" "out/" false "db" "mash.msh" 4 "ids.json" None None ∅ in
  result r = Returned (Some {| AssemblySummary.species := ecoli;
                               AssemblySummary.assembly_quality := 24;
                               AssemblySummary.contigs_filename :=
                                 "out/contigs.fasta" |})
  ∧ files r !! "out/contigs.fasta" = Some File.
Proof. by vm_compute. Qed.
